(** * watermeter: a windowed running-total accumulator

    Shallow embedding of [watermeter.go] (package [watermeter]) and the
    properties of its four methods [Init], [GetFlow], [GetGallons] and
    [Update].

    - [uint64] values are integers in [0, 2^64) with the wrap-around of Go's
      unsigned arithmetic written out ([U64]).
    - [float64] values are IEEE-754 binary64 numbers, taken from the
      specification of floating-point arithmetic of the Standard Library
      ([F64], over [SpecFloat]).
    - A [time.Time] is an instant on an unbounded line of nanoseconds and a
      [time.Duration] is a signed 64-bit count of nanoseconds ([Time],
      [Duration]).
    - [container/list] is a [list] whose head is the front of the list.
    - A method with a pointer receiver is a computation in a state and error
      monad over the [Watermeter] record; the reading of the injected clock
      [w.now()] made by the call is an argument of the method. *)

From Stdlib Require Import ZArith List Bool Lia.
From Stdlib Require Import SpecFloat.
From Equations Require Import Equations.
Import ListNotations.
Open Scope Z_scope.

(** ** Unsigned 64-bit integers *)

Module U64.
Definition modulus : Z := 2 ^ 64.
Definition in_range (z : Z) : Prop := 0 <= z < modulus.
Definition wrap (z : Z) : Z := z mod modulus.
Definition add (a b : Z) : Z := wrap (a + b).
Definition sub (a b : Z) : Z := wrap (a - b).
Definition div (a b : Z) : Z := a / b.
End U64.

(** ** IEEE-754 binary64 *)

Module F64.
Definition prec : Z := 53.
Definition emax : Z := 1024.
Definition float64 : Type := spec_float.
(** [float64(z)] for an integer [z]: rounded to nearest, ties to even. *)
Definition of_Z (z : Z) : float64 := binary_normalize prec emax z 0 false.
Definition add (x y : float64) : float64 := SFadd prec emax x y.
Definition div (x y : float64) : float64 := SFdiv prec emax x y.
Definition leb (x y : float64) : bool := SFleb x y.
Definition zero : float64 := S754_zero false.
Definition infinity : float64 := S754_infinity false.
Definition nan : float64 := S754_nan.
Definition is_finite (x : float64) : bool :=
  match x with
  | S754_zero _ | S754_finite _ _ _ => true
  | S754_infinity _ | S754_nan => false
  end.
End F64.

(** ** Package [time] *)

Module Duration.
Definition t : Type := Z.
Definition min_int64 : Z := - 2 ^ 63.
Definition max_int64 : Z := 2 ^ 63 - 1.
Definition in_range (d : Z) : Prop := min_int64 <= d <= max_int64.
(** Two's complement reduction of a signed 64-bit result. *)
Definition wrap (z : Z) : Z := (z + 2 ^ 63) mod 2 ^ 64 - 2 ^ 63.
(** Unary minus on [int64]. *)
Definition neg (d : t) : t := wrap (- d).
Definition Second : t := 1000000000.
Definition Minute : t := 60 * Second.
(** [func (d Duration) Minutes() float64]:
    [min := d / Minute; nsec := d % Minute;
     return float64(min) + float64(nsec)/(60*1e9)]. *)
Definition Minutes (d : t) : F64.float64 :=
  let min := Z.quot d Minute in
  let nsec := Z.rem d Minute in
  F64.add (F64.of_Z min) (F64.div (F64.of_Z nsec) (F64.of_Z 60000000000)).
End Duration.

Module Time.
Definition t : Type := Z.
Definition Add (x : t) (d : Duration.t) : t := x + d.
(** [t.Sub(u)] saturates at the bounds of [Duration]. *)
Definition Sub (x u : t) : Duration.t :=
  Z.max Duration.min_int64 (Z.min Duration.max_int64 (x - u)).
Definition Before (x u : t) : bool := x <? u.
Definition Equal (x u : t) : bool := x =? u.
End Time.

(** ** Data model *)

Module entry.
Record t : Type := mk { time : Time.t; total : Z }.
End entry.

(** [Usage] and [Change] record whether the hook is registered (not [nil]);
    [mutex] records whether the mutex is held; [events] has the newest entry
    at its head. *)
Record Watermeter : Type := mkWatermeter {
  Timeout : Duration.t;
  Usage : bool;
  Change : bool;
  lastGallon : entry.t;
  total : Z;
  events : list entry.t;
  mutex : bool
}.

(** A goroutine started by a [go] statement. *)
Inductive goroutine : Type :=
| GoChange : goroutine
| GoUsage (gallons : Z) (flow : F64.float64) : goroutine.

(** ** The monad of methods: state passing, [None] is a run-time panic *)

Definition M (A : Type) : Type := Watermeter -> option (A * Watermeter).

Definition ret {A} (a : A) : M A := fun w => Some (a, w).
Definition bind {A B} (c : M A) (k : A -> M B) : M B :=
  fun w => match c w with
           | Some (a, w') => k a w'
           | None => None
           end.
Definition panic {A} : M A := fun _ => None.
Definition gets {A} (f : Watermeter -> A) : M A := fun w => Some (f w, w).
Definition modify (f : Watermeter -> Watermeter) : M unit :=
  fun w => Some (tt, f w).

Notation "x <- c ;; k" := (bind c (fun x => k))
  (at level 61, c at next level, right associativity).
Notation "c ;;; k" := (bind c (fun _ => k))
  (at level 61, right associativity).

Definition set_total (v : Z) (w : Watermeter) : Watermeter :=
  mkWatermeter (Timeout w) (Usage w) (Change w) (lastGallon w) v (events w) (mutex w).
Definition set_events (v : list entry.t) (w : Watermeter) : Watermeter :=
  mkWatermeter (Timeout w) (Usage w) (Change w) (lastGallon w) (total w) v (mutex w).
Definition set_lastGallon (v : entry.t) (w : Watermeter) : Watermeter :=
  mkWatermeter (Timeout w) (Usage w) (Change w) v (total w) (events w) (mutex w).
Definition set_mutex (v : bool) (w : Watermeter) : Watermeter :=
  mkWatermeter (Timeout w) (Usage w) (Change w) (lastGallon w) (total w) (events w) v.

Definition Lock : M unit := modify (set_mutex true).
Definition Unlock : M unit := modify (set_mutex false).

(** ** [container/list] *)

Definition PushFront (e : entry.t) (l : list entry.t) : list entry.t := e :: l.
Definition Back (l : list entry.t) : option entry.t :=
  match l with
  | [] => None
  | _ => Some (last l (entry.mk 0 0))
  end.
(** [Remove] of the back element. *)
Definition RemoveBack (l : list entry.t) : list entry.t := removelast l.
Definition Len (l : list entry.t) : Z := Z.of_nat (length l).

(** ** [Init] *)

Definition Init (now : Time.t) (initial : Z) : M unit :=
  modify (set_total initial) ;;;
  modify (set_mutex false) ;;;
  modify (set_events []) ;;;
  total0 <- gets total ;;
  let e := entry.mk now total0 in
  evs <- gets events ;;
  modify (set_events (PushFront e evs)) ;;;
  modify (set_lastGallon e).

(** ** [GetFlow] *)

(** The loop [for nil != item] of [GetFlow], from the element [items] starts
    at: [start] moves to every entry not before [then_], and the walk stops at
    the first entry before it. *)
Fixpoint walk (then_ : Time.t) (start : entry.t) (items : list entry.t) : entry.t :=
  match items with
  | [] => start
  | e :: rest =>
      if Time.Equal then_ (entry.time e) || Time.Before then_ (entry.time e)
      then walk then_ (entry.mk (entry.time e) (entry.total e)) rest
      else start
  end.

(** What [GetFlow] holds between its statements: [then], [end] and [start]. *)
Record flow_query : Type := mkQuery {
  q_then : Time.t;
  q_end : entry.t;
  q_start : entry.t
}.

(** Lines 72-76: the clock and [w.total] are read before the mutex is taken. *)
Definition GetFlow_read (now : Time.t) (duration : Duration.t) : M flow_query :=
  let then_ := Time.Add now (Duration.neg duration) in
  total0 <- gets total ;;
  total1 <- gets total ;;
  ret (mkQuery then_ (entry.mk now total0) (entry.mk now total1)).

(** Lines 78-92: the traversal of the history, under the mutex. *)
Definition GetFlow_walk (q : flow_query) : M flow_query :=
  Lock ;;;
  evs <- gets events ;;
  let start := walk (q_then q) (q_start q) evs in
  Unlock ;;;
  ret (mkQuery (q_then q) (q_end q) start).

(** Lines 94-95. *)
Definition flow_rate (volumeDelta : Z) (minutes : F64.float64) : F64.float64 :=
  F64.div (F64.div (F64.of_Z volumeDelta) (F64.of_Z 1000)) minutes.

Definition GetFlow_result (q : flow_query) (duration : Duration.t) : F64.float64 :=
  let volumeDelta := U64.sub (entry.total (q_end q)) (entry.total (q_start q)) in
  flow_rate volumeDelta (Duration.Minutes duration).

Definition GetFlow (now : Time.t) (duration : Duration.t) : M F64.float64 :=
  q <- GetFlow_read now duration ;;
  q' <- GetFlow_walk q ;;
  ret (GetFlow_result q' duration).

(** ** [GetGallons] *)

Definition GetGallons : M Z :=
  total0 <- gets total ;;
  ret (U64.div total0 1000).

(** ** [Update] *)

(** One pass through the body of the loop [for false == done]: the list left
    by the pass and the value of [done] at its end. *)
Definition prune_step (prune : Time.t) (evs : list entry.t)
  : option (list entry.t * bool) :=
  match Back evs with
  | None => None
  | Some e =>
      let '(evs', done) :=
        if Time.Before (entry.time e) prune
        then (RemoveBack evs, false)
        else (evs, true) in
      let done := if 3 >? Len evs' then true else done in
      Some (evs', done)
  end.

Definition inspect {A : Type} (a : A) : {b : A | a = b} := exist _ a eq_refl.

Equations? prune_loop (prune : Time.t) (evs : list entry.t)
  : option (list entry.t) by wf (length evs) lt :=
  prune_loop prune evs with inspect (prune_step prune evs) => {
    | exist _ None _ := None;
    | exist _ (Some (evs', true)) _ := Some evs';
    | exist _ (Some (evs', false)) H := prune_loop prune evs' }.
Proof.
  revert H. unfold prune_step, Back, RemoveBack.
  destruct evs as [|x xs]; [discriminate|].
  assert (HL : forall l : list entry.t, l <> [] -> S (length (removelast l)) = length l).
  { induction l as [|a [|b l'] IH]; intros Hne; [congruence | reflexivity |].
    change (S (S (length (removelast (b :: l')))) = S (length (b :: l'))).
    rewrite IH by discriminate. reflexivity. }
  destruct (Time.Before _ prune).
  - destruct (3 >? _); intros H; inversion H; subst.
    rewrite <- (HL (x :: xs)) by discriminate. apply Nat.lt_succ_diag_r.
  - destruct (3 >? _); discriminate.
Qed.

(** Lines 109-133: the critical section of [Update].  It returns [before],
    [after] and the new entry [e]. *)
Definition Update_locked (now : Time.t) (mGallons : Z) : M (Z * Z * entry.t) :=
  timeout <- gets Timeout ;;
  let prune := Time.Add now (Duration.neg timeout) in
  Lock ;;;
  total0 <- gets total ;;
  let before := U64.div total0 1000 in
  modify (set_total (U64.add total0 mGallons)) ;;;
  total1 <- gets total ;;
  let after := U64.div total1 1000 in
  let e := entry.mk now total1 in
  evs <- gets events ;;
  modify (set_events (PushFront e evs)) ;;;
  evs1 <- gets events ;;
  match prune_loop prune evs1 with
  | None => panic
  | Some evs2 =>
      modify (set_events evs2) ;;;
      Unlock ;;;
      ret (before, after, e)
  end.

(** Lines 135-146: the goroutines started after the mutex is released, in
    the order of their [go] statements, and the update of [lastGallon]. *)
Definition Update_notify (bae : Z * Z * entry.t) : M (list goroutine) :=
  let '(before, after, e) := bae in
  change <- gets Change ;;
  let spawned := if change then [GoChange] else [] in
  if U64.sub after before >? 0 then
    usage <- gets Usage ;;
    last <- gets lastGallon ;;
    let flow := F64.div (F64.of_Z (U64.sub (entry.total e) (entry.total last)))
                        (F64.of_Z 1000) in
    let flow := F64.div flow
                  (Duration.Minutes (Time.Sub (entry.time e) (entry.time last))) in
    let spawned := if usage then spawned ++ [GoUsage after flow] else spawned in
    modify (set_lastGallon e) ;;;
    ret spawned
  else ret spawned.

Definition Update (now : Time.t) (mGallons : Z) : M (list goroutine) :=
  bae <- Update_locked now mGallons ;;
  Update_notify bae.

(** A sequence of [Update] calls, each with the reading of the clock it
    makes and its argument. *)
Fixpoint run (calls : list (Time.t * Z)) : M unit :=
  match calls with
  | [] => ret tt
  | (now, mGallons) :: rest => Update now mGallons ;;; run rest
  end.

Definition sum_deltas (calls : list (Time.t * Z)) : Z :=
  fold_right (fun c acc => snd c + acc) 0 calls.

(** [Init], the calls and then [GetGallons]. *)
Definition gallons_after (now0 : Time.t) (initial : Z)
  (calls : list (Time.t * Z)) : M Z :=
  Init now0 initial ;;; run calls ;;; GetGallons.

(** The states an accumulator goes through: [Init], then [Update] calls. *)
Inductive reachable : Watermeter -> Prop :=
| reach_Init now initial w w' :
    Init now initial w = Some (tt, w') -> reachable w'
| reach_Update now mGallons w spawned w' :
    reachable w -> Update now mGallons w = Some (spawned, w') -> reachable w'.

(** ** The pruning rule in the words of the specification

    "While the history holds more than 2 samples AND the oldest sample's
    timestamp is strictly older than [now - retention_window], remove the
    oldest sample." *)

Definition oldest_is_stale (prune : Time.t) (evs : list entry.t) : bool :=
  match Back evs with
  | Some e => Time.Before (entry.time e) prune
  | None => false
  end.

Equations? prune_spec (prune : Time.t) (evs : list entry.t)
  : list entry.t by wf (length evs) lt :=
  prune_spec prune evs
    with inspect ((2 <? Len evs) && oldest_is_stale prune evs) => {
    | exist _ true H := prune_spec prune (RemoveBack evs);
    | exist _ false _ := evs }.
Proof.
  destruct evs as [|x xs]; [discriminate|].
  assert (HL : forall l : list entry.t, l <> [] -> S (length (removelast l)) = length l).
  { induction l as [|a [|b l'] IH]; intros Hne; [congruence | reflexivity |].
    change (S (S (length (removelast (b :: l')))) = S (length (b :: l'))).
    rewrite IH by discriminate. reflexivity. }
  unfold RemoveBack. rewrite <- (HL (x :: xs)) by discriminate.
  apply Nat.lt_succ_diag_r.
Qed.

(** ** The window rule in the words of the specification

    "[start] = the oldest Sample in history whose timestamp is
    [>= now - duration]": the first such sample met from the oldest end. *)

Definition in_window (then_ : Time.t) (e : entry.t) : bool :=
  then_ <=? entry.time e.

Definition oldest_in_window (then_ : Time.t) (evs : list entry.t)
  : option entry.t :=
  find (in_window then_) (rev evs).

(** Timestamps (totals) do not decrease from the oldest entry to the newest:
    stated on the history traversed oldest first. *)
Fixpoint nondecreasing (f : entry.t -> Z) (oldest_first : list entry.t) : Prop :=
  match oldest_first with
  | [] => True
  | e :: rest =>
      Forall (fun e' => f e <= f e') rest /\ nondecreasing f rest
  end.

Definition time_ordered (evs : list entry.t) : Prop :=
  nondecreasing entry.time (rev evs).
Definition total_ordered (evs : list entry.t) : Prop :=
  nondecreasing entry.total (rev evs).

(** ** Vocabulary of the properties *)

(** The value a method returns, without the state. *)
Definition result {A : Type} (r : option (A * Watermeter)) : option A :=
  option_map fst r.

(** A [Watermeter] before [Init], with its exported fields set. *)
Definition meter (timeout : Duration.t) (usage change : bool) : Watermeter :=
  mkWatermeter timeout usage change (entry.mk 0 0) 0 [] false.

(** The history after [Init] and a sequence of calls. *)
Definition history_after (now0 : Time.t) (initial : Z)
  (calls : list (Time.t * Z)) : M (list entry.t) :=
  Init now0 initial ;;; run calls ;;; gets events.

(** The injected clock never goes back: every reading is at least the
    previous one, [last] being the reading before the calls. *)
Fixpoint clock_nondecreasing (last : Time.t) (calls : list (Time.t * Z)) : Prop :=
  match calls with
  | [] => True
  | (now, _) :: rest => last <= now /\ clock_nondecreasing now rest
  end.

Definition is_usage (g : goroutine) : bool :=
  match g with
  | GoUsage _ _ => true
  | GoChange => false
  end.

(** The schedule in which another goroutine runs a whole [Update] call after
    [GetFlow] has read [w.total] (lines 75-76) and before it takes the mutex
    (line 78). *)
Definition GetFlow_interleaved (now : Time.t) (duration : Duration.t)
  (now_update : Time.t) (mGallons : Z) : M F64.float64 :=
  q <- GetFlow_read now duration ;;
  Update now_update mGallons ;;;
  q' <- GetFlow_walk q ;;
  ret (GetFlow_result q' duration).

(** The instant before which [Update] prunes and the entry it appends. *)
Definition Update_prune (now : Time.t) (w : Watermeter) : Time.t :=
  Time.Add now (Duration.neg (Timeout w)).

Definition Update_entry (now : Time.t) (mGallons : Z) (w : Watermeter) : entry.t :=
  entry.mk now (U64.add (total w) mGallons).

Definition stale (prune : Time.t) (e : entry.t) : Prop :=
  entry.time e < prune.

(** The exponent binary64 gives a number of magnitude [e]. *)
Definition fexp64 (e : Z) : Z := fexp F64.prec F64.emax e.

(** A positive finite binary64 number whose magnitude (number of digits of
    the mantissa plus exponent) lies in [lo, hi]. *)
Definition pos_finite (lo hi : Z) (x : spec_float) : Prop :=
  exists m e, x = S754_finite false m e /\ lo <= Zdigits2 (Zpos m) + e <= hi.

(** ** Vocabulary of the further properties *)

(** A sequence of [Update] calls, keeping the goroutines the calls start, in
    the order they are started. *)
Fixpoint run_log (calls : list (Time.t * Z)) : M (list goroutine) :=
  match calls with
  | [] => ret []
  | (now, mGallons) :: rest =>
      spawned <- Update now mGallons ;;
      later <- run_log rest ;;
      ret (spawned ++ later)
  end.

(** The entries a sequence of [Update] calls appends from the running total
    [t], oldest first. *)
Fixpoint appended (t : Z) (calls : list (Time.t * Z)) : list entry.t :=
  match calls with
  | [] => []
  | (now, mGallons) :: rest =>
      entry.mk now (U64.add t mGallons) :: appended (U64.add t mGallons) rest
  end.

(** The whole-gallon counts handed to the [Usage] hook, in order. *)
Definition usage_gallons (log : list goroutine) : list Z :=
  flat_map (fun g => match g with
                     | GoUsage gallons _ => [gallons]
                     | GoChange => []
                     end) log.

Definition is_change (g : goroutine) : bool := negb (is_usage g).

(** The new whole-gallon count of every call that changes the count, from
    the running total [t], in the order of the calls. *)
Fixpoint crossing_gallons (t : Z) (calls : list (Time.t * Z)) : list Z :=
  match calls with
  | [] => []
  | (_, mGallons) :: rest =>
      (if U64.add t mGallons / 1000 =? t / 1000
       then [] else [U64.add t mGallons / 1000])
      ++ crossing_gallons (U64.add t mGallons) rest
  end.

(** [lastGallon] and the total are [uint64] values in the same whole
    gallon. *)
Definition settled (w : Watermeter) : Prop :=
  U64.in_range (total w) /\
  U64.in_range (entry.total (lastGallon w)) /\
  entry.total (lastGallon w) / 1000 = total w / 1000.

(** Strictly increasing, from the first element to the last. *)
Fixpoint increasing (l : list Z) : Prop :=
  match l with
  | [] => True
  | x :: rest => Forall (fun y => x < y) rest /\ increasing rest
  end.

(** A sample is fresh when [Update] may not prune it. *)
Definition fresh (prune : Time.t) (e : entry.t) : Prop :=
  prune <= entry.time e.

(** * Properties *)

(** ** binary64 rounding keeps positive numbers positive and finite

    The magnitude of a mantissa [m] with exponent [e] is
    [Zdigits2 m + e]: the value lies in [2^(magnitude-1), 2^magnitude). *)

Lemma fexp64_eq e : fexp64 e = Z.max (e - 53) (-1074).
Proof. reflexivity. Qed.

Lemma digits2_pos_size p : digits2_pos p = Pos.size p.
Proof. induction p; simpl; congruence. Qed.

Lemma Zdigits2_log2 m : 0 < m -> Zdigits2 m = Z.log2 m + 1.
Proof.
  destruct m as [|p|p]; try lia. intros _. simpl.
  rewrite digits2_pos_size.
  destruct p; simpl; lia.
Qed.

Lemma Zdigits2_pos m : 0 < m -> 0 < Zdigits2 m.
Proof.
  intros H. rewrite Zdigits2_log2 by assumption.
  pose proof (Z.log2_nonneg m). lia.
Qed.

Lemma Zdigits2_bounds m : 0 < m -> 2 ^ (Zdigits2 m - 1) <= m < 2 ^ Zdigits2 m.
Proof.
  intros H. rewrite Zdigits2_log2 by assumption.
  replace (Z.log2 m + 1 - 1) with (Z.log2 m) by lia.
  apply Z.log2_spec. assumption.
Qed.

Lemma Zdigits2_unique m k : 2 ^ (k - 1) <= m < 2 ^ k -> 0 < k -> Zdigits2 m = k.
Proof.
  intros H Hk.
  assert (0 < m). { pose proof (Z.pow_pos_nonneg 2 (k - 1)). lia. }
  rewrite Zdigits2_log2 by assumption.
  rewrite (Z.log2_unique m (k - 1)); try lia.
  replace (Z.succ (k - 1)) with k by lia. assumption.
Qed.

Lemma Zdigits2_mono a b : 0 < a -> a <= b -> Zdigits2 a <= Zdigits2 b.
Proof.
  intros Ha Hab. rewrite !Zdigits2_log2 by lia.
  pose proof (Z.log2_le_mono a b Hab). lia.
Qed.

Lemma Zdigits2_succ a : 0 < a -> Zdigits2 (a + 1) <= Zdigits2 a + 1.
Proof.
  intros Ha. rewrite !Zdigits2_log2 by lia.
  pose proof (Z.log2_succ_le a). unfold Z.succ in *. lia.
Qed.

Lemma Zdigits2_shiftl a n : 0 < a -> 0 <= n -> Zdigits2 (a * 2 ^ n) = Zdigits2 a + n.
Proof.
  intros Ha Hn.
  assert (0 < a * 2 ^ n) by (pose proof (Z.pow_pos_nonneg 2 n); nia).
  rewrite !Zdigits2_log2 by lia.
  rewrite Z.log2_mul_pow2 by lia. lia.
Qed.

Lemma Zdigits2_shiftr a n :
  0 < a -> 0 <= n -> n < Zdigits2 a ->
  0 < a / 2 ^ n /\ Zdigits2 (a / 2 ^ n) = Zdigits2 a - n.
Proof.
  intros Ha Hn Hlt.
  pose proof (Zdigits2_bounds a Ha) as [Hlo Hhi].
  assert (Hp : 0 < 2 ^ n) by (apply Z.pow_pos_nonneg; lia).
  assert (Hle : 2 ^ n <= a).
  { eapply Z.le_trans; [|exact Hlo]. apply Z.pow_le_mono_r; lia. }
  assert (Hq : 0 < a / 2 ^ n) by (apply Z.div_str_pos; lia).
  split; [exact Hq|].
  apply Zdigits2_unique; [|lia].
  split.
  - apply Z.div_le_lower_bound; [lia|].
    rewrite <- Z.pow_add_r by lia.
    replace (n + (Zdigits2 a - n - 1)) with (Zdigits2 a - 1) by lia. exact Hlo.
  - apply Z.div_lt_upper_bound; [lia|].
    rewrite <- Z.pow_add_r by lia.
    replace (n + (Zdigits2 a - n)) with (Zdigits2 a) by lia. exact Hhi.
Qed.

(** shr *)
Lemma shr_1_m r : 0 <= shr_m r -> shr_m (shr_1 r) = shr_m r / 2.
Proof.
  destruct r as [m rb sb]. simpl. intros Hm.
  destruct m as [|p|p]; try lia; [reflexivity|].
  destruct p; simpl shr_m.
  - rewrite Pos2Z.inj_xI. apply (Z.div_unique _ 2 _ 1); lia.
  - rewrite Pos2Z.inj_xO. apply (Z.div_unique _ 2 _ 0); lia.
  - reflexivity.
Qed.

Lemma pow2_xO p : 2 ^ Zpos p~0 = 2 ^ Zpos p * 2 ^ Zpos p.
Proof. rewrite Pos2Z.inj_xO, <- Z.pow_add_r by lia. f_equal. lia. Qed.

Lemma pow2_xI p : 2 ^ Zpos p~1 = 2 * (2 ^ Zpos p * 2 ^ Zpos p).
Proof.
  rewrite Pos2Z.inj_xI, <- Z.pow_add_r by lia.
  replace (2 * Z.pos p + 1) with (Z.succ (Z.pos p + Z.pos p)) by lia.
  rewrite Z.pow_succ_r by lia. reflexivity.
Qed.

Lemma iter_shr_1_m p : forall r, 0 <= shr_m r ->
  shr_m (iter_pos shr_1 p r) = shr_m r / 2 ^ Zpos p.
Proof.
  induction p as [p IH|p IH|]; intros r Hr; simpl iter_pos.
  - assert (Hp : 0 < 2 ^ Z.pos p) by (apply Z.pow_pos_nonneg; lia).
    assert (H1 : 0 <= shr_m (shr_1 r)).
    { rewrite shr_1_m by assumption. apply Z.div_pos; lia. }
    assert (H2 : 0 <= shr_m (iter_pos shr_1 p (shr_1 r))).
    { rewrite IH by assumption. apply Z.div_pos; lia. }
    rewrite IH, IH, shr_1_m by assumption.
    rewrite pow2_xI, !Z.div_div by lia. reflexivity.
  - assert (Hp : 0 < 2 ^ Z.pos p) by (apply Z.pow_pos_nonneg; lia).
    assert (H2 : 0 <= shr_m (iter_pos shr_1 p r)).
    { rewrite IH by assumption. apply Z.div_pos; lia. }
    rewrite IH, IH by assumption.
    rewrite pow2_xO, !Z.div_div by lia. reflexivity.
  - rewrite shr_1_m by assumption. reflexivity.
Qed.

Lemma shr_record_of_loc_m m l : shr_m (shr_record_of_loc m l) = m.
Proof. destruct l as [|[]]; reflexivity. Qed.

Lemma shr_fexp_spec m e l :
  0 < m -> e <= fexp64 (Zdigits2 m + e) -> -1074 < Zdigits2 m + e ->
  exists r, shr_fexp F64.prec F64.emax m e l = (r, fexp64 (Zdigits2 m + e)) /\
            0 < shr_m r /\
            Zdigits2 (shr_m r) + fexp64 (Zdigits2 m + e) = Zdigits2 m + e.
Proof.
  intros Hm He HD. unfold shr_fexp. fold (fexp64 (Zdigits2 m + e)).
  remember (fexp64 (Zdigits2 m + e)) as E eqn:HE.
  pose proof (fexp64_eq (Zdigits2 m + e)) as HF. rewrite <- HE in HF.
  unfold shr. destruct (E - e) as [|p|p] eqn:Hn; try lia.
  - exists (shr_record_of_loc m l). rewrite shr_record_of_loc_m.
    replace E with e by lia. repeat split; try lia.
  - exists (iter_pos shr_1 p (shr_record_of_loc m l)).
    rewrite iter_shr_1_m by (rewrite shr_record_of_loc_m; lia).
    rewrite shr_record_of_loc_m.
    destruct (Zdigits2_shiftr m (Z.pos p)) as [Hq Hd]; try lia.
    repeat split; try lia. f_equal. lia.
Qed.

Lemma round_nearest_even_bounds m l :
  m <= round_nearest_even m l <= m + 1.
Proof.
  unfold round_nearest_even. destruct l as [|[]]; try lia.
  destruct (Z.even m); lia.
Qed.

(** Rounding an aligned positive mantissa in the normal or subnormal range
    gives a finite number of the same sign and of the same magnitude or the
    next one. *)
Lemma binary_round_aux_finite s m e l :
  0 < m -> e <= fexp64 (Zdigits2 m + e) ->
  -1074 < Zdigits2 m + e < 1024 ->
  exists m' e',
    binary_round_aux F64.prec F64.emax s m e l = S754_finite s m' e' /\
    Zdigits2 m + e <= Zdigits2 (Zpos m') + e' <= Zdigits2 m + e + 1.
Proof.
  intros Hm He HD. unfold binary_round_aux.
  destruct (shr_fexp_spec m e l Hm He ltac:(lia)) as (r1 & Hr1 & Hm1 & Hd1).
  rewrite Hr1.
  set (D := Zdigits2 m + e) in *.
  set (m2 := round_nearest_even (shr_m r1) (loc_of_shr_record r1)).
  pose proof (round_nearest_even_bounds (shr_m r1) (loc_of_shr_record r1)) as Hb.
  fold m2 in Hb.
  assert (Hm2 : 0 < m2) by lia.
  assert (HD2 : D <= Zdigits2 m2 + fexp64 D <= D + 1).
  { pose proof (Zdigits2_mono (shr_m r1) m2 Hm1 ltac:(lia)).
    pose proof (Zdigits2_mono m2 (shr_m r1 + 1) Hm2 ltac:(lia)).
    pose proof (Zdigits2_succ (shr_m r1) Hm1). lia. }
  destruct (shr_fexp_spec m2 (fexp64 D) loc_Exact Hm2) as (r2 & Hr2 & Hm3 & Hd3).
  { pose proof (fexp64_eq D). pose proof (fexp64_eq (Zdigits2 m2 + fexp64 D)). lia. }
  { pose proof (fexp64_eq D). lia. }
  rewrite Hr2.
  destruct (shr_m r2) as [|p|p] eqn:Hp; try lia.
  assert (Hle : (fexp64 (Zdigits2 m2 + fexp64 D) <=? F64.emax - F64.prec) = true).
  { apply Z.leb_le. pose proof (fexp64_eq (Zdigits2 m2 + fexp64 D)).
    pose proof (fexp64_eq D). unfold F64.emax, F64.prec. lia. }
  fold (fexp64 (Zdigits2 m2 + fexp64 D)).
  rewrite Hle. eexists; eexists; split; [reflexivity|]. lia.
Qed.

Lemma Zdigits2_div a b :
  0 < a -> 0 < b -> Zdigits2 b < Zdigits2 a ->
  0 < a / b /\
  Zdigits2 a - Zdigits2 b <= Zdigits2 (a / b) <= Zdigits2 a - Zdigits2 b + 1.
Proof.
  intros Ha Hb Hlt.
  destruct (Zdigits2_bounds a Ha) as [Halo Hahi].
  destruct (Zdigits2_bounds b Hb) as [Hblo Hbhi].
  pose proof (Zdigits2_pos b Hb) as Hdb.
  set (da := Zdigits2 a) in *. set (db := Zdigits2 b) in *.
  assert (Hlow : 2 ^ (da - db - 1) <= a / b).
  { apply Z.div_le_lower_bound; [lia|].
    assert (2 ^ db * 2 ^ (da - db - 1) = 2 ^ (da - 1)).
    { rewrite <- Z.pow_add_r by lia. f_equal. lia. }
    assert (0 < 2 ^ (da - db - 1)) by (apply Z.pow_pos_nonneg; lia).
    nia. }
  assert (Hup : a / b < 2 ^ (da - db + 1)).
  { apply Z.div_lt_upper_bound; [lia|].
    assert (2 ^ (db - 1) * 2 ^ (da - db + 1) = 2 ^ da).
    { rewrite <- Z.pow_add_r by lia. f_equal. lia. }
    assert (0 < 2 ^ (da - db + 1)) by (apply Z.pow_pos_nonneg; lia).
    nia. }
  assert (Hq : 0 < a / b).
  { assert (0 < 2 ^ (da - db - 1)) by (apply Z.pow_pos_nonneg; lia). lia. }
  split; [exact Hq|].
  destruct (Zdigits2_bounds (a / b) Hq) as [Hqlo Hqhi].
  pose proof (Zdigits2_pos (a / b) Hq) as Hdq.
  set (dq := Zdigits2 (a / b)) in *.
  split.
  - destruct (Z_lt_le_dec dq (da - db)) as [Hc|]; [|lia].
    assert (2 ^ dq <= 2 ^ (da - db - 1)) by (apply Z.pow_le_mono_r; lia). lia.
  - destruct (Z_lt_le_dec (da - db + 1) dq) as [Hc|]; [|lia].
    assert (2 ^ (da - db + 1) <= 2 ^ (dq - 1)) by (apply Z.pow_le_mono_r; lia). lia.
Qed.

Lemma Zdigits2_add a b :
  0 < a -> 0 < b ->
  Z.max (Zdigits2 a) (Zdigits2 b) <= Zdigits2 (a + b)
    <= Z.max (Zdigits2 a) (Zdigits2 b) + 1.
Proof.
  intros Ha Hb.
  destruct (Zdigits2_bounds a Ha) as [Halo Hahi].
  destruct (Zdigits2_bounds b Hb) as [Hblo Hbhi].
  pose proof (Zdigits2_mono a (a + b) Ha ltac:(lia)).
  pose proof (Zdigits2_mono b (a + b) Hb ltac:(lia)).
  split; [lia|].
  assert (Hs : 0 < a + b) by lia.
  destruct (Zdigits2_bounds (a + b) Hs) as [Hslo Hshi].
  pose proof (Zdigits2_pos a Ha). pose proof (Zdigits2_pos b Hb).
  set (k := Z.max (Zdigits2 a) (Zdigits2 b)) in *.
  destruct (Z_lt_le_dec (k + 1) (Zdigits2 (a + b))) as [Hc|]; [|lia].
  assert (2 ^ (k + 1) <= 2 ^ (Zdigits2 (a + b) - 1)) by (apply Z.pow_le_mono_r; lia).
  assert (2 ^ Zdigits2 a <= 2 ^ k) by (apply Z.pow_le_mono_r; lia).
  assert (2 ^ Zdigits2 b <= 2 ^ k) by (apply Z.pow_le_mono_r; lia).
  assert (2 ^ (k + 1) = 2 * 2 ^ k) by (rewrite Z.pow_add_r by lia; lia).
  lia.
Qed.

Lemma shl_align_spec m e E :
  exists mz,
    shl_align m e E = (mz, Z.min e E) /\
    Zpos mz = Zpos m * 2 ^ (e - Z.min e E).
Proof.
  unfold shl_align. destruct (E - e) as [|p|p] eqn:Hd.
  - exists m. replace (Z.min e E) with e by lia.
    rewrite Z.sub_diag. split; [reflexivity | simpl; lia].
  - exists m. replace (Z.min e E) with e by lia.
    rewrite Z.sub_diag. split; [reflexivity | simpl; lia].
  - exists (Pos.iter xO m p). replace (Z.min e E) with E by lia.
    split; [reflexivity|].
    change (Pos.iter xO m p) with (shift_pos p m).
    rewrite shift_pos_correct. replace (e - E) with (Z.pos p) by lia.
    rewrite Z.mul_comm. reflexivity.
Qed.

Lemma binary_round_finite s m e :
  -1074 < Zdigits2 (Zpos m) + e < 1024 ->
  exists m' e',
    binary_round F64.prec F64.emax s m e = S754_finite s m' e' /\
    Zdigits2 (Zpos m) + e <= Zdigits2 (Zpos m') + e' <= Zdigits2 (Zpos m) + e + 1.
Proof.
  intros HD. unfold binary_round.
  change (Z.pos (digits2_pos m)) with (Zdigits2 (Zpos m)).
  fold (fexp64 (Zdigits2 (Z.pos m) + e)).
  destruct (shl_align_spec m e (fexp64 (Zdigits2 (Z.pos m) + e))) as (mz & Hz & Hv).
  rewrite Hz.
  pose proof (fexp64_eq (Zdigits2 (Z.pos m) + e)) as HF.
  set (E := fexp64 (Zdigits2 (Z.pos m) + e)) in *.
  assert (Hdz : Zdigits2 (Zpos mz) + Z.min e E = Zdigits2 (Zpos m) + e).
  { rewrite Hv, Zdigits2_shiftl by lia. lia. }
  destruct (binary_round_aux_finite s (Zpos mz) (Z.min e E) loc_Exact)
    as (m' & e' & Hr & Hb).
  - lia.
  - rewrite Hdz. fold E. lia.
  - lia.
  - exists m', e'. split; [exact Hr | lia].
Qed.

Lemma binary_normalize_finite z e :
  0 < z -> -1074 < Zdigits2 z + e < 1024 ->
  pos_finite (Zdigits2 z + e) (Zdigits2 z + e + 1)
    (binary_normalize F64.prec F64.emax z e false).
Proof.
  intros Hz HD. destruct z as [|p|p]; try lia.
  unfold binary_normalize.
  destruct (binary_round_finite false p e HD) as (m' & e' & Hr & Hb).
  exists m', e'. split; assumption.
Qed.

Lemma of_Z_zero : F64.of_Z 0 = S754_zero false.
Proof. reflexivity. Qed.

Lemma of_Z_finite z k :
  0 < z < 2 ^ k -> 0 < k < 1023 -> pos_finite 1 (k + 1) (F64.of_Z z).
Proof.
  intros Hz Hk.
  assert (Hd : 0 < Zdigits2 z <= k).
  { split; [apply Zdigits2_pos; lia|].
    destruct (Zdigits2_bounds z ltac:(lia)) as [Hlo _].
    destruct (Z_lt_le_dec k (Zdigits2 z)) as [Hc|]; [|lia].
    assert (2 ^ k <= 2 ^ (Zdigits2 z - 1)) by (apply Z.pow_le_mono_r; lia). lia. }
  destruct (binary_normalize_finite z 0 ltac:(lia) ltac:(lia)) as (m & e & Hr & Hb).
  exists m, e. split; [exact Hr | lia].
Qed.

Lemma shiftl_match m s :
  0 <= s ->
  match s with Z.pos _ => Z.shiftl m s | 0 => m | Z.neg _ => 0 end = m * 2 ^ s.
Proof.
  intros Hs. destruct s as [|p|p]; try lia.
  rewrite Z.shiftl_mul_pow2 by lia. reflexivity.
Qed.

Lemma div_finite a b c d x y :
  pos_finite a b x -> pos_finite c d y ->
  -1021 <= a - d -> b - c + 1 < 1024 ->
  pos_finite (a - d) (b - c + 2) (F64.div x y).
Proof.
  intros (mx & ex & -> & Hx) (my & ey & -> & Hy) Hlo Hhi.
  unfold F64.div, SFdiv, SFdiv_core_binary.
  fold (fexp64 (Zdigits2 (Z.pos mx) + ex - (Zdigits2 (Z.pos my) + ey))).
  pose proof (fexp64_eq (Zdigits2 (Z.pos mx) + ex - (Zdigits2 (Z.pos my) + ey))) as HF.
  set (E := fexp64 (Zdigits2 (Z.pos mx) + ex - (Zdigits2 (Z.pos my) + ey))) in *.
  set (e' := Z.min E (ex - ey)).
  set (s := ex - ey - e').
  set (m' := match s with Z.pos _ => Z.shiftl (Z.pos mx) s | 0 => Z.pos mx | Z.neg _ => 0 end).
  assert (Hs : 0 <= s) by (unfold s, e'; lia).
  assert (Hm' : m' = Z.pos mx * 2 ^ s).
  { unfold m'. apply shiftl_match. exact Hs. }
  assert (Hdm' : Zdigits2 m' = Zdigits2 (Zpos mx) + s).
  { rewrite Hm'. apply Zdigits2_shiftl; lia. }
  assert (Hm'pos : 0 < m').
  { rewrite Hm'. pose proof (Z.pow_pos_nonneg 2 s). nia. }
  destruct (Z.div_eucl m' (Z.pos my)) as [q r] eqn:Hqr.
  assert (Hq : q = m' / Z.pos my) by (unfold Z.div; rewrite Hqr; reflexivity).
  destruct (Zdigits2_div m' (Z.pos my)) as [Hqpos Hqd];
    [lia | lia | rewrite Hdm'; unfold s, e'; lia |].
  rewrite <- Hq in Hqpos, Hqd.
  destruct (binary_round_aux_finite (xorb false false) q e'
              (new_location (Zpos my) r)) as (mz & ez & Hr & Hb).
  - exact Hqpos.
  - pose proof (fexp64_eq (Zdigits2 q + e')). unfold s, e' in *. lia.
  - unfold s, e' in *. lia.
  - rewrite Hr. exists mz, ez. split; [reflexivity|]. unfold s, e' in *. lia.
Qed.

Lemma add_finite a b c d x y :
  pos_finite a b x -> pos_finite c d y ->
  -1074 < Z.max a c -> Z.max b d + 1 < 1024 ->
  pos_finite (Z.max a c) (Z.max b d + 2) (F64.add x y).
Proof.
  intros (mx & ex & -> & Hx) (my & ey & -> & Hy) Hlo Hhi.
  unfold F64.add, SFadd.
  destruct (shl_align_spec mx ex (Z.min ex ey)) as (ax & Hax & Hvx).
  destruct (shl_align_spec my ey (Z.min ex ey)) as (ay & Hay & Hvy).
  rewrite Hax, Hay. simpl fst. simpl cond_Zopp.
  replace (Z.min ex (Z.min ex ey)) with (Z.min ex ey) in Hvx by lia.
  replace (Z.min ey (Z.min ex ey)) with (Z.min ex ey) in Hvy by lia.
  set (ez := Z.min ex ey) in *.
  assert (Hdx : Zdigits2 (Zpos ax) + ez = Zdigits2 (Zpos mx) + ex).
  { rewrite Hvx, Zdigits2_shiftl by lia. lia. }
  assert (Hdy : Zdigits2 (Zpos ay) + ez = Zdigits2 (Zpos my) + ey).
  { rewrite Hvy, Zdigits2_shiftl by lia. lia. }
  pose proof (Zdigits2_add (Zpos ax) (Zpos ay) ltac:(lia) ltac:(lia)) as Hadd.
  destruct (binary_normalize_finite (Z.pos ax + Z.pos ay) ez ltac:(lia) ltac:(lia))
    as (m & e & Hr & Hb).
  exists m, e. split; [exact Hr | lia].
Qed.

Lemma of_Z_1000 : F64.of_Z 1000 = S754_finite false 8796093022208000 (-43).
Proof. reflexivity. Qed.

Lemma of_Z_Minute :
  F64.of_Z 60000000000 = S754_finite false 7864320000000000 (-17).
Proof. reflexivity. Qed.

Lemma pos_finite_1000 : pos_finite 10 10 (F64.of_Z 1000).
Proof. rewrite of_Z_1000. eexists; eexists; split; [reflexivity|]. simpl. lia. Qed.

Lemma pos_finite_Minute : pos_finite 36 36 (F64.of_Z 60000000000).
Proof. rewrite of_Z_Minute. eexists; eexists; split; [reflexivity|]. simpl. lia. Qed.

Lemma add_zero_l x a b : pos_finite a b x -> F64.add (S754_zero false) x = x.
Proof. intros (m & e & -> & _). reflexivity. Qed.

Lemma add_zero_r x a b : pos_finite a b x -> F64.add x (S754_zero false) = x.
Proof. intros (m & e & -> & _). reflexivity. Qed.

Lemma div_zero_l x a b :
  pos_finite a b x -> F64.div (S754_zero false) x = S754_zero false.
Proof. intros (m & e & -> & _). reflexivity. Qed.

Lemma div_zero_r x a b :
  pos_finite a b x -> F64.div x (S754_zero false) = S754_infinity false.
Proof. intros (m & e & -> & _). reflexivity. Qed.

Lemma pos_finite_weaken a b a' b' x :
  pos_finite a b x -> a' <= a -> b <= b' -> pos_finite a' b' x.
Proof. intros (m & e & -> & H) Ha Hb. exists m, e. split; [reflexivity | lia]. Qed.

(** [Minutes] of a positive duration is a positive finite number. *)
Lemma Minutes_pos_finite d :
  0 < d <= Duration.max_int64 -> pos_finite (-35) 31 (Duration.Minutes d).
Proof.
  intros [Hd Hmax]. unfold Duration.max_int64 in Hmax. unfold Duration.Minutes.
  assert (HM : Duration.Minute = 60000000000) by reflexivity.
  rewrite Z.quot_div_nonneg, Z.rem_mod_nonneg by (rewrite ?HM; lia).
  rewrite HM.
  pose proof (Z.mod_pos_bound d 60000000000 ltac:(lia)) as Hr.
  pose proof (Z.div_mod d 60000000000 ltac:(lia)) as Hdm.
  assert (Hq : 0 <= d / 60000000000 < 2 ^ 28).
  { split; [apply Z.div_pos; lia|]. apply Z.div_lt_upper_bound; lia. }
  set (q := d / 60000000000) in *. set (r := d mod 60000000000) in *.
  destruct (Z.eq_dec q 0) as [Hq0|Hq0]; destruct (Z.eq_dec r 0) as [Hr0|Hr0].
  - lia.
  - rewrite Hq0, of_Z_zero.
    assert (Hy : pos_finite (-35) 3 (F64.div (F64.of_Z r) (F64.of_Z 60000000000))).
    { apply (div_finite 1 37 36 36); try lia.
      - apply (of_Z_finite r 36); lia.
      - exact pos_finite_Minute. }
    rewrite (add_zero_l _ _ _ Hy). eapply pos_finite_weaken; [exact Hy | lia | lia].
  - rewrite Hr0, of_Z_zero, (div_zero_l _ _ _ pos_finite_Minute).
    assert (Hx : pos_finite 1 29 (F64.of_Z q)) by (apply (of_Z_finite q 28); lia).
    rewrite (add_zero_r _ _ _ Hx). eapply pos_finite_weaken; [exact Hx | lia | lia].
  - assert (Hx : pos_finite 1 29 (F64.of_Z q)) by (apply (of_Z_finite q 28); lia).
    assert (Hy : pos_finite (-35) 3 (F64.div (F64.of_Z r) (F64.of_Z 60000000000))).
    { apply (div_finite 1 37 36 36); try lia.
      - apply (of_Z_finite r 36); lia.
      - exact pos_finite_Minute. }
    pose proof (add_finite _ _ _ _ _ _ Hx Hy ltac:(lia) ltac:(lia)) as Hs.
    eapply pos_finite_weaken; [exact Hs | lia | lia].
Qed.

Lemma Minutes_zero : Duration.Minutes 0 = S754_zero false.
Proof. reflexivity. Qed.

(** The quotient computed by [GetFlow] and by [Update]. *)
Lemma flow_rate_zero minutes a b :
  pos_finite a b minutes -> flow_rate 0 minutes = S754_zero false.
Proof.
  intros H. unfold flow_rate.
  rewrite of_Z_zero, (div_zero_l _ _ _ pos_finite_1000).
  apply (div_zero_l _ _ _ H).
Qed.

Lemma flow_rate_pos_finite delta minutes :
  0 < delta < U64.modulus -> pos_finite (-35) 31 minutes ->
  pos_finite (-40) 94 (flow_rate delta minutes).
Proof.
  intros Hd Hm. unfold flow_rate, U64.modulus in *.
  assert (H1 : pos_finite 1 65 (F64.of_Z delta)) by (apply (of_Z_finite delta 64); lia).
  pose proof (div_finite _ _ _ _ _ _ H1 pos_finite_1000 ltac:(lia) ltac:(lia)) as H2.
  pose proof (div_finite _ _ _ _ _ _ H2 Hm ltac:(lia) ltac:(lia)) as H3.
  eapply pos_finite_weaken; [exact H3 | lia | lia].
Qed.

Lemma flow_rate_by_zero delta :
  0 <= delta < U64.modulus ->
  flow_rate delta (S754_zero false) =
  if delta =? 0 then F64.nan else F64.infinity.
Proof.
  intros Hd. destruct (Z.eqb_spec delta 0) as [->|Hne]; [reflexivity|].
  unfold flow_rate, U64.modulus in *.
  assert (H1 : pos_finite 1 65 (F64.of_Z delta)) by (apply (of_Z_finite delta 64); lia).
  pose proof (div_finite _ _ _ _ _ _ H1 pos_finite_1000 ltac:(lia) ltac:(lia)) as H2.
  apply (div_zero_r _ _ _ H2).
Qed.

Lemma pos_finite_nonneg a b x : pos_finite a b x -> F64.leb F64.zero x = true.
Proof. intros (m & e & -> & _). reflexivity. Qed.

Lemma U64_wrap_range z : 0 <= U64.wrap z < U64.modulus.
Proof. unfold U64.wrap. apply Z.mod_pos_bound. reflexivity. Qed.

(** ** Running the monad *)

Ltac run_m :=
  unfold Init, GetFlow, GetFlow_read, GetFlow_walk, GetGallons, Update_notify,
    Lock, Unlock, bind, ret, gets, modify, panic,
    set_total, set_events, set_lastGallon, set_mutex, PushFront; simpl.

Lemma Init_eq now initial w :
  Init now initial w =
  Some (tt, mkWatermeter (Timeout w) (Usage w) (Change w) (entry.mk now initial)
              initial [entry.mk now initial] false).
Proof. reflexivity. Qed.

Lemma GetGallons_eq w : GetGallons w = Some (total w / 1000, w).
Proof. reflexivity. Qed.

Lemma GetFlow_eq now duration w :
  GetFlow now duration w =
  Some (flow_rate
          (U64.sub (total w)
             (entry.total (walk (Time.Add now (Duration.neg duration))
                             (entry.mk now (total w)) (events w))))
          (Duration.Minutes duration),
        set_mutex false w).
Proof. reflexivity. Qed.

(** ** The pruning loop *)

Lemma length_RemoveBack (evs : list entry.t) :
  evs <> [] -> S (length (RemoveBack evs)) = length evs.
Proof.
  unfold RemoveBack.
  induction evs as [|x [|y ys] IH]; intros Hne; [congruence | reflexivity |].
  change (S (S (length (removelast (y :: ys)))) = S (length (y :: ys))).
  rewrite IH by discriminate. reflexivity.
Qed.


Lemma prune_loop_unroll prune evs :
  prune_loop prune evs =
  match prune_step prune evs with
  | None => None
  | Some (evs', true) => Some evs'
  | Some (evs', false) => prune_loop prune evs'
  end.
Proof.
  funelim (prune_loop prune evs);
    match goal with e : prune_step _ _ = _ |- _ => rewrite e end; reflexivity.
Qed.

Lemma prune_spec_unroll prune evs :
  prune_spec prune evs =
  if (2 <? Len evs) && oldest_is_stale prune evs
  then prune_spec prune (RemoveBack evs) else evs.
Proof.
  funelim (prune_spec prune evs);
    match goal with e : _ && _ = _ |- _ => rewrite e end; reflexivity.
Qed.

Lemma Back_cons x xs : exists e, Back (x :: xs) = Some e.
Proof. eexists; reflexivity. Qed.

Lemma RemoveBack_split evs e :
  Back evs = Some e -> evs = RemoveBack evs ++ [e].
Proof.
  unfold Back, RemoveBack. destruct evs as [|x xs]; [discriminate|].
  intros H.
  assert (He : e = last (x :: xs) (entry.mk 0 0)) by congruence.
  rewrite He. apply app_removelast_last. discriminate.
Qed.

Lemma Len_RemoveBack evs : evs <> [] -> Len (RemoveBack evs) = Len evs - 1.
Proof.
  intros H. unfold Len. rewrite <- (length_RemoveBack evs H). lia.
Qed.

(** The loop returns for every non-empty list; what it keeps is a prefix of
    the list, what it drops is stale, and it keeps 2 entries of a list of 3
    or more and 1 entry of a list of 2. *)
Lemma prune_loop_kept prune n : forall evs,
  (length evs <= n)%nat -> evs <> [] ->
  exists kept dropped,
    prune_loop prune evs = Some kept /\ evs = kept ++ dropped /\
    Forall (stale prune) dropped /\
    (3 <= Len evs -> 2 <= Len kept) /\ (2 <= Len evs -> 1 <= Len kept).
Proof.
  induction n as [|n IH]; intros evs Hn Hne.
  - destruct evs; [congruence | simpl in Hn; lia].
  - rewrite prune_loop_unroll. unfold prune_step.
    destruct evs as [|x xs]; [congruence|].
    destruct (Back_cons x xs) as [e He]. rewrite He.
    pose proof (RemoveBack_split _ _ He) as Hsplit.
    pose proof (Len_RemoveBack (x :: xs) ltac:(discriminate)) as HL.
    destruct (Time.Before (entry.time e) prune) eqn:Hb.
    + destruct (3 >? Len (RemoveBack (x :: xs))) eqn:H3.
      * exists (RemoveBack (x :: xs)), [e]. repeat split; try assumption.
        -- constructor; [|constructor]. unfold stale. apply Z.ltb_lt. exact Hb.
        -- lia.
        -- lia.
      * assert (Hlen : 3 <= Len (RemoveBack (x :: xs))) by lia.
        destruct (IH (RemoveBack (x :: xs))) as (kept & dropped & Hk & Hs & Hf & H3' & H2').
        -- unfold Len in HL. simpl length in *. lia.
        -- intros Hnil. rewrite Hnil in Hlen. unfold Len in Hlen. simpl in Hlen. lia.
        -- exists kept, (dropped ++ [e]). repeat split.
           ++ exact Hk.
           ++ rewrite app_assoc, <- Hs. exact Hsplit.
           ++ apply Forall_app. split; [exact Hf|].
              constructor; [|constructor]. unfold stale. apply Z.ltb_lt. exact Hb.
           ++ intros _. apply H3'. exact Hlen.
           ++ intros _. apply H2'. lia.
    + exists (x :: xs), []. rewrite app_nil_r.
      destruct (3 >? Len (x :: xs)); repeat split; auto; lia.
Qed.

Lemma prune_loop_returns prune evs :
  evs <> [] ->
  exists kept dropped,
    prune_loop prune evs = Some kept /\ evs = kept ++ dropped /\
    Forall (stale prune) dropped /\
    (3 <= Len evs -> 2 <= Len kept) /\ (2 <= Len evs -> 1 <= Len kept).
Proof. intros H. apply (prune_loop_kept prune (length evs)); auto. Qed.

(** On a list of 3 or more entries the loop is the loop of the
    specification. *)
Lemma prune_loop_refines prune n : forall evs,
  (length evs <= n)%nat -> 3 <= Len evs ->
  prune_loop prune evs = Some (prune_spec prune evs).
Proof.
  induction n as [|n IH]; intros evs Hn H3.
  - unfold Len in H3. lia.
  - rewrite prune_loop_unroll, prune_spec_unroll.
    unfold prune_step, oldest_is_stale.
    destruct evs as [|x xs]; [unfold Len in H3; simpl in H3; lia|].
    destruct (Back_cons x xs) as [e He]. rewrite He.
    pose proof (Len_RemoveBack (x :: xs) ltac:(discriminate)) as HL.
    replace (2 <? Len (x :: xs)) with true by (symmetry; apply Z.ltb_lt; lia).
    simpl andb.
    destruct (Time.Before (entry.time e) prune) eqn:Hb.
    + destruct (3 >? Len (RemoveBack (x :: xs))) eqn:Hlt.
      * rewrite prune_spec_unroll.
        replace (2 <? Len (RemoveBack (x :: xs))) with false
          by (symmetry; apply Z.ltb_ge; lia).
        reflexivity.
      * apply IH; [|lia].
        unfold Len in HL. simpl length in *. lia.
    + destruct (3 >? Len (x :: xs)); reflexivity.
Qed.

(** ** [Update] in closed form *)

Lemma Update_eq now mGallons w kept :
  prune_loop (Update_prune now w) (Update_entry now mGallons w :: events w)
    = Some kept ->
  Update now mGallons w =
  Update_notify
    (U64.div (total w) 1000, U64.div (U64.add (total w) mGallons) 1000,
     Update_entry now mGallons w)
    (mkWatermeter (Timeout w) (Usage w) (Change w) (lastGallon w)
       (U64.add (total w) mGallons) kept false).
Proof.
  intros H. unfold Update, Update_locked, Update_prune, Update_entry in *.
  unfold bind at 1. run_m. rewrite H. reflexivity.
Qed.

Lemma Update_notify_state bae w :
  exists spawned w',
    Update_notify bae w = Some (spawned, w') /\
    Timeout w' = Timeout w /\ Usage w' = Usage w /\ Change w' = Change w /\
    total w' = total w /\ events w' = events w /\ mutex w' = mutex w.
Proof.
  destruct bae as [[before after] e]. run_m.
  destruct (U64.sub after before >? 0); eexists; eexists;
    (split; [reflexivity | simpl; auto 10]).
Qed.

(** [Update] never panics, and its effect on total and history. *)
Lemma Update_returns now mGallons w :
  exists spawned w' kept dropped,
    Update now mGallons w = Some (spawned, w') /\
    total w' = U64.add (total w) mGallons /\
    events w' = kept /\
    Timeout w' = Timeout w /\ Usage w' = Usage w /\ Change w' = Change w /\
    prune_loop (Update_prune now w) (Update_entry now mGallons w :: events w)
      = Some kept /\
    Update_entry now mGallons w :: events w = kept ++ dropped /\
    Forall (stale (Update_prune now w)) dropped /\
    (2 <= Len (events w) -> 2 <= Len kept) /\
    (1 <= Len (events w) -> 1 <= Len kept).
Proof.
  destruct (prune_loop_returns (Update_prune now w)
              (Update_entry now mGallons w :: events w) ltac:(discriminate))
    as (kept & dropped & Hk & Hs & Hf & H3 & H2).
  rewrite (Update_eq _ _ _ _ Hk).
  match goal with |- context [Update_notify ?b ?s] =>
    destruct (Update_notify_state b s)
      as (spawned & w' & Hn & Ht & Hu & Hc & Htot & Hev & _) end.
  exists spawned, w', kept, dropped. rewrite Hn. simpl in *.
  repeat split; auto.
  - intros H. apply H3. unfold Len in *. simpl length. lia.
  - intros H. apply H2. unfold Len in *. simpl length. lia.
Qed.

(** ** The running total *)

Lemma wrap_add_wrap a b : U64.wrap (U64.wrap a + b) = U64.wrap (a + b).
Proof. unfold U64.wrap. apply Zplus_mod_idemp_l. Qed.

Lemma wrap_small z : U64.in_range z -> U64.wrap z = z.
Proof. intros H. unfold U64.wrap. apply Z.mod_small. exact H. Qed.

Lemma run_total calls : forall w,
  exists w', run calls w = Some (tt, w') /\
             U64.wrap (total w') = U64.wrap (total w + sum_deltas calls).
Proof.
  induction calls as [|[now m] rest IH]; intros w.
  - exists w. split; [reflexivity|]. simpl. f_equal. lia.
  - destruct (Update_returns now m w)
      as (spawned & w1 & kept & dropped & Hu & Ht & _).
    destruct (IH w1) as (w' & Hr & Hw').
    exists w'. split.
    + simpl. unfold bind. rewrite Hu. exact Hr.
    + rewrite Hw', Ht. unfold U64.add. rewrite wrap_add_wrap.
      f_equal. simpl. lia.
Qed.

Lemma run_total_range calls : forall w,
  U64.in_range (total w) ->
  exists w', run calls w = Some (tt, w') /\ U64.in_range (total w').
Proof.
  induction calls as [|[now m] rest IH]; intros w Hw.
  - exists w. split; [reflexivity | exact Hw].
  - destruct (Update_returns now m w)
      as (spawned & w1 & kept & dropped & Hu & Ht & _).
    destruct (IH w1) as (w' & Hr & Hw').
    { rewrite Ht. apply U64_wrap_range. }
    exists w'. split; [|exact Hw'].
    simpl. unfold bind. rewrite Hu. exact Hr.
Qed.

(** C1, as amended: after [Init] with any initial total and any finite
    sequence of [Update] calls with deltas d1..dn, [GetGallons] returns the
    floor of ((initial + d1 + ... + dn) mod 2^64) / 1000, the sum wrapping
    around as [uint64] addition does; this is
    floor((initial + d1 + ... + dn) / 1000) whenever the sum is below 2^64. *)
Theorem GetGallons_after_updates now0 initial calls w :
  U64.in_range initial ->
  result (gallons_after now0 initial calls w) =
    Some (U64.wrap (initial + sum_deltas calls) / 1000) /\
  (0 <= sum_deltas calls ->
   initial + sum_deltas calls < U64.modulus ->
   result (gallons_after now0 initial calls w) =
     Some ((initial + sum_deltas calls) / 1000)).
Proof.
  intros Hin.
  assert (H : result (gallons_after now0 initial calls w) =
              Some (U64.wrap (initial + sum_deltas calls) / 1000)).
  { unfold gallons_after, bind at 1. rewrite Init_eq.
    match goal with |- context [bind (run calls) ?k ?s] =>
      set (w1 := s); unfold bind at 1 end.
    destruct (run_total calls w1) as (w' & Hr & Ht).
    destruct (run_total_range calls w1 Hin) as (w'' & Hr' & Hrange).
    rewrite Hr in Hr'. inversion Hr'; subst w''.
    rewrite Hr, GetGallons_eq. simpl.
    rewrite (wrap_small _ Hrange) in Ht. rewrite Ht. reflexivity. }
  split; [exact H|].
  intros Hpos Hsum. rewrite H, wrap_small; [reflexivity|].
  destruct Hin. unfold U64.in_range. lia.
Qed.

Lemma GetGallons_after_updates_witness :
  U64.in_range 0 /\
  result (gallons_after 0 0 [(1000000000, 500); (2000000000, 600)]
            (meter 60000000000 true true)) =
  Some (U64.wrap (0 + sum_deltas [(1000000000, 500); (2000000000, 600)]) / 1000).
Proof.
  assert (H : U64.in_range 0) by (unfold U64.in_range, U64.modulus; lia).
  split; [exact H|].
  exact (proj1 (GetGallons_after_updates 0 0
                  [(1000000000, 500); (2000000000, 600)]
                  (meter 60000000000 true true) H)).
Defined.

(** C1 as stated fails when the sum passes 2^64: from the initial total
    2^64 - 1, one [Update(1)] wraps the total to 0 and [GetGallons] returns
    0, not floor(2^64 / 1000). *)
Lemma GetGallons_overflow_counterexample :
  result (gallons_after 0 18446744073709551615 [(0, 1)] (meter 0 false false))
    = Some 0 /\
  (18446744073709551615 + sum_deltas [(0, 1)]) / 1000 = 18446744073709551.
Proof. split; vm_compute; reflexivity. Qed.

(** ** The history is never empty *)

Lemma reachable_front w :
  reachable w ->
  exists e rest, events w = e :: rest /\ entry.total e = total w.
Proof.
  induction 1 as [now initial w w' Hi | now m w spawned w' Hr IH Hu].
  - rewrite Init_eq in Hi. inversion Hi; subst. simpl. eauto.
  - destruct IH as (e0 & rest0 & He0 & _).
    destruct (Update_returns now m w)
      as (sp & w1 & kept & dropped & Hu1 & Ht & Hev & _ & _ & _ & _ & Hsplit & _ & _ & H1).
    rewrite Hu in Hu1. inversion Hu1; subst sp w1.
    assert (Hk : 1 <= Len kept).
    { apply H1. rewrite He0. unfold Len. simpl length. lia. }
    destruct kept as [|k ks]; [unfold Len in Hk; simpl in Hk; lia|].
    simpl in Hsplit. inversion Hsplit; subst k.
    exists (Update_entry now m w), ks. split; [exact Hev|].
    rewrite Ht. reflexivity.
Qed.

(** C10: after [Init] and after every [Update] call the history is not
    empty and the total of its front entry is the running total; and an
    [Update] call from such a state returns (taking the back element never
    meets an empty list, which would panic) with the entry it appended still
    at the front of the history. *)
Theorem history_front_is_total w :
  reachable w ->
  (exists e rest, events w = e :: rest /\ entry.total e = total w) /\
  (forall now mGallons,
     exists spawned w' rest,
       Update now mGallons w = Some (spawned, w') /\
       events w' = Update_entry now mGallons w :: rest /\
       entry.total (Update_entry now mGallons w) = total w').
Proof.
  intros Hr. split; [apply reachable_front; exact Hr|].
  intros now m.
  destruct (Update_returns now m w)
    as (sp & w1 & kept & dropped & Hu1 & Ht & Hev & _ & _ & _ & _ & _).
  assert (Hr1 : reachable w1) by (eapply reach_Update; eassumption).
  destruct (reachable_front w1 Hr1) as (e & rest & He & Het).
  destruct (Update_returns now m w)
    as (sp' & w1' & kept' & dropped' & Hu1' & _ & Hev' & _ & _ & _ & _ & Hsplit & _ & _ & H1).
  rewrite Hu1 in Hu1'. inversion Hu1'; subst sp' w1'.
  destruct (reachable_front w Hr) as (e0 & rest0 & He0 & _).
  assert (Hk : 1 <= Len kept').
  { apply H1. rewrite He0. unfold Len. simpl length. lia. }
  destruct kept' as [|k ks]; [unfold Len in Hk; simpl in Hk; lia|].
  simpl in Hsplit. inversion Hsplit; subst k.
  exists sp, w1, ks. repeat split; try assumption.
  rewrite Ht. reflexivity.
Qed.

Lemma history_front_is_total_witness :
  reachable (mkWatermeter 60000000000 true true (entry.mk 0 0) 0 [entry.mk 0 0] false) /\
  (exists e rest,
     events (mkWatermeter 60000000000 true true (entry.mk 0 0) 0 [entry.mk 0 0] false)
       = e :: rest /\
     entry.total e =
     total (mkWatermeter 60000000000 true true (entry.mk 0 0) 0 [entry.mk 0 0] false)).
Proof.
  assert (H : reachable (mkWatermeter 60000000000 true true (entry.mk 0 0) 0
                           [entry.mk 0 0] false)).
  { apply (reach_Init 0 0 (meter 60000000000 true true)). reflexivity. }
  split; [exact H|].
  exact (proj1 (history_front_is_total _ H)).
Defined.

(** ** The length of the history *)

(** C3, as amended: after [Init] the history holds exactly 1 sample; an
    [Update] call on a non-empty history leaves it non-empty, and an
    [Update] call on a history of at least 2 samples leaves at least 2
    samples, whatever [Timeout] and the clock; in such a call the pruning is
    the loop of the specification, which removes the oldest sample only
    while the history holds more than 2 samples and the oldest sample's
    timestamp is strictly older than [now - Timeout]. *)
Theorem history_length :
  (forall now initial w,
     exists w', Init now initial w = Some (tt, w') /\ Len (events w') = 1) /\
  (forall now mGallons w,
     exists spawned w',
       Update now mGallons w = Some (spawned, w') /\
       (1 <= Len (events w) -> 1 <= Len (events w')) /\
       (2 <= Len (events w) ->
        2 <= Len (events w') /\
        events w' =
        prune_spec (Update_prune now w) (Update_entry now mGallons w :: events w))).
Proof.
  split.
  - intros now initial w. eexists. rewrite Init_eq. split; reflexivity.
  - intros now m w.
    destruct (Update_returns now m w)
      as (sp & w1 & kept & dropped & Hu & _ & Hev & _ & _ & _ & Hk & _ & _ & H2 & H1).
    exists sp, w1. rewrite Hev. repeat split; auto.
    rewrite (prune_loop_refines (Update_prune now w)
               (length (Update_entry now m w :: events w))) in Hk.
    + congruence.
    + apply Nat.le_refl.
    + unfold Len in *. simpl length. lia.
Qed.

Lemma history_length_witness :
  2 <= Len (events (mkWatermeter 10 false false (entry.mk 0 0) 7
                      [entry.mk 50 7; entry.mk 0 0] false)) /\
  exists spawned w',
    Update 100 5 (mkWatermeter 10 false false (entry.mk 0 0) 7
                    [entry.mk 50 7; entry.mk 0 0] false) = Some (spawned, w') /\
    2 <= Len (events w').
Proof.
  assert (H : 2 <= Len (events (mkWatermeter 10 false false (entry.mk 0 0) 7
                                  [entry.mk 50 7; entry.mk 0 0] false))).
  { unfold Len. simpl. lia. }
  split; [exact H|].
  destruct (proj2 history_length 100 5
              (mkWatermeter 10 false false (entry.mk 0 0) 7
                 [entry.mk 50 7; entry.mk 0 0] false))
    as (sp & w' & Hu & _ & H2).
  exists sp, w'. split; [exact Hu | exact (proj1 (H2 H))].
Defined.

(** C3 as stated fails: [Init] leaves 1 sample, and with [Timeout] 10 an
    [Update] at instant 100 after an [Init] at instant 0 removes the initial
    sample from a history of 2, leaving 1. *)
Lemma history_of_one_sample_counterexample :
  option_map (fun r => Len (events (snd r))) (Init 0 0 (meter 10 false false))
    = Some 1 /\
  option_map (fun r => events (snd r))
    ((Init 0 0 ;;; Update 100 5) (meter 10 false false))
    = Some [entry.mk 100 5].
Proof. split; vm_compute; reflexivity. Qed.

(** ** Reads leave the state alone *)

(** C8: [GetFlow] and [GetGallons] return with the total, the history and
    [lastGallon] (and the exported fields) as they found them, for every
    state, clock reading and duration; of the calls made after [Init], only
    [Update] writes them. *)
Theorem reads_do_not_mutate w now duration :
  (exists r w',
     GetFlow now duration w = Some (r, w') /\
     total w' = total w /\ events w' = events w /\
     lastGallon w' = lastGallon w /\
     Timeout w' = Timeout w /\ Usage w' = Usage w /\ Change w' = Change w) /\
  (exists g w',
     GetGallons w = Some (g, w') /\
     total w' = total w /\ events w' = events w /\
     lastGallon w' = lastGallon w /\
     Timeout w' = Timeout w /\ Usage w' = Usage w /\ Change w' = Change w).
Proof.
  split.
  - rewrite GetFlow_eq. eexists; eexists. split; [reflexivity|].
    simpl. auto 10.
  - rewrite GetGallons_eq. eexists; eexists. split; [reflexivity|]. auto 10.
Qed.

(** ** The start of the window *)

Lemma nondecreasing_app f l1 l2 :
  nondecreasing f (l1 ++ l2) ->
  nondecreasing f l1 /\ nondecreasing f l2 /\
  Forall (fun a => Forall (fun b => f a <= f b) l2) l1.
Proof.
  induction l1 as [|x xs IH]; simpl.
  - intros H. repeat split; auto.
  - intros [Hx Hrest]. apply Forall_app in Hx. destruct Hx as [Hx1 Hx2].
    destruct (IH Hrest) as (H1 & H2 & H3). repeat split; auto.
Qed.

Lemma nondecreasing_snoc f l e :
  nondecreasing f l -> Forall (fun a => f a <= f e) l ->
  nondecreasing f (l ++ [e]).
Proof.
  induction l as [|x xs IH]; simpl.
  - intros _ _. split; [constructor | exact I].
  - intros [Hx Hrest] Hall. inversion Hall; subst. split.
    + apply Forall_app. split; [exact Hx | constructor; [assumption | constructor]].
    + apply IH; assumption.
Qed.

Lemma ordered_cons f e rest :
  nondecreasing f (rev (e :: rest)) ->
  nondecreasing f (rev rest) /\ Forall (fun a => f a <= f e) rest.
Proof.
  simpl. intros H. apply nondecreasing_app in H. destruct H as (H1 & _ & H3).
  split; [exact H1|].
  apply Forall_rev in H3. rewrite rev_involutive in H3.
  eapply Forall_impl; [|exact H3]. intros a Ha. inversion Ha; subst. assumption.
Qed.

Lemma find_none_all {A} (p : A -> bool) l :
  Forall (fun a => p a = false) l -> find p l = None.
Proof.
  induction 1 as [|a l Ha _ IH]; [reflexivity|]. simpl. rewrite Ha. exact IH.
Qed.

Lemma find_snoc {A} (p : A -> bool) l a :
  find p (l ++ [a]) =
  match find p l with
  | Some x => Some x
  | None => if p a then Some a else None
  end.
Proof.
  induction l as [|x xs IH]; simpl; [reflexivity|].
  destruct (p x); [reflexivity | exact IH].
Qed.

Lemma walk_in_window then_ e :
  Time.Equal then_ (entry.time e) || Time.Before then_ (entry.time e)
  = in_window then_ e.
Proof.
  unfold Time.Equal, Time.Before, in_window.
  destruct (Z.eqb_spec then_ (entry.time e)), (Z.ltb_spec then_ (entry.time e)),
    (Z.leb_spec then_ (entry.time e)); simpl; try reflexivity; lia.
Qed.

(** On a history in time order the walk of [GetFlow] ends at the oldest
    sample in the window, or at its starting point when there is none. *)
Lemma walk_oldest then_ evs : forall start,
  time_ordered evs ->
  walk then_ start evs =
  match oldest_in_window then_ evs with
  | Some e => e
  | None => start
  end.
Proof.
  unfold time_ordered, oldest_in_window.
  induction evs as [|e rest IH]; intros start Hord; [reflexivity|].
  apply ordered_cons in Hord. destruct Hord as [Hrest Hle].
  simpl walk. rewrite walk_in_window. simpl rev. rewrite find_snoc.
  destruct (in_window then_ e) eqn:He.
  - rewrite IH by exact Hrest.
    destruct (find (in_window then_) (rev rest)); [reflexivity|].
    destruct e; reflexivity.
  - rewrite find_none_all; [reflexivity|].
    apply Forall_rev. eapply Forall_impl; [|exact Hle].
    intros a Ha. unfold in_window in *. simpl in Ha.
    apply Z.leb_gt. apply Z.leb_gt in He. lia.
Qed.

Lemma neg_small d :
  0 <= d <= Duration.max_int64 -> Duration.neg d = - d.
Proof.
  unfold Duration.max_int64, Duration.neg, Duration.wrap. intros H.
  rewrite Z.mod_small by lia. lia.
Qed.

(** C2, as amended: for every state whose history is in time order (as it
    is when the clock never goes back) and every positive duration [d],
    [GetFlow(d)] returns (total - start.total) / 1000 / minutes(d), in
    [uint64] and binary64 arithmetic, where [start] is the oldest sample of
    the history with a timestamp at or after [now - d]; when no sample is in
    that window, [start] is the point (now, total) and the result is zero. *)
Theorem GetFlow_oldest_in_window w now d :
  time_ordered (events w) ->
  0 < d <= Duration.max_int64 ->
  exists w',
    GetFlow now d w =
    Some (F64.div
            (F64.div
               (F64.of_Z
                  (U64.sub (total w)
                     (entry.total
                        match oldest_in_window (now - d) (events w) with
                        | Some e => e
                        | None => entry.mk now (total w)
                        end)))
               (F64.of_Z 1000))
            (Duration.Minutes d), w') /\
    (oldest_in_window (now - d) (events w) = None ->
     GetFlow now d w = Some (F64.zero, w')).
Proof.
  intros Hord Hd. exists (set_mutex false w).
  rewrite GetFlow_eq. unfold Time.Add. rewrite neg_small by lia.
  rewrite walk_oldest by exact Hord.
  replace (now + - d) with (now - d) by lia.
  split; [reflexivity|].
  intros Hnone. rewrite Hnone. simpl entry.total.
  unfold U64.sub. rewrite Z.sub_diag. change (U64.wrap 0) with 0.
  rewrite (flow_rate_zero _ _ _ (Minutes_pos_finite d Hd)). reflexivity.
Qed.

Lemma GetFlow_oldest_in_window_witness :
  time_ordered
    (events (mkWatermeter 60000000000 true true (entry.mk 2000000000 1100) 1100
               [entry.mk 2000000000 1100; entry.mk 1000000000 500; entry.mk 0 0]
               false)) /\
  0 < 60000000000 <= Duration.max_int64 /\
  exists w',
    GetFlow 2000000000 60000000000
      (mkWatermeter 60000000000 true true (entry.mk 2000000000 1100) 1100
         [entry.mk 2000000000 1100; entry.mk 1000000000 500; entry.mk 0 0]
         false) =
    Some (F64.div (F64.div (F64.of_Z (U64.sub 1100 0)) (F64.of_Z 1000))
            (Duration.Minutes 60000000000), w').
Proof.
  assert (H1 : time_ordered
    (events (mkWatermeter 60000000000 true true (entry.mk 2000000000 1100) 1100
               [entry.mk 2000000000 1100; entry.mk 1000000000 500; entry.mk 0 0]
               false))).
  { unfold time_ordered. simpl. repeat split; repeat constructor; simpl; lia. }
  assert (H2 : 0 < 60000000000 <= Duration.max_int64).
  { unfold Duration.max_int64. lia. }
  split; [exact H1|]. split; [exact H2|].
  destruct (GetFlow_oldest_in_window _ 2000000000 60000000000 H1 H2) as (w' & Hw & _).
  exists w'. exact Hw.
Defined.

(** C2 as stated fails on a history that is not in time order.  With clock
    readings 20s, 0s and 30s for [Init] and two [Update(500)] calls, the
    history is (30s, 1000), (0s, 500), (20s, 0); [GetFlow(15s)] at 30s stops
    at the sample of 0s and returns 0, while the oldest sample at or after
    15s is (20s, 0), for which the claim gives 1000/1000/0.25 = 4. *)
Lemma GetFlow_unordered_history_counterexample :
  (Init 20000000000 0 ;;; Update 0 500 ;;; Update 30000000000 500 ;;; gets events)
    (meter 60000000000 false false)
  = Some ([entry.mk 30000000000 1000; entry.mk 0 500; entry.mk 20000000000 0],
          mkWatermeter 60000000000 false false (entry.mk 30000000000 1000) 1000
            [entry.mk 30000000000 1000; entry.mk 0 500; entry.mk 20000000000 0]
            false) /\
  result (GetFlow 30000000000 15000000000
            (mkWatermeter 60000000000 false false (entry.mk 30000000000 1000) 1000
               [entry.mk 30000000000 1000; entry.mk 0 500; entry.mk 20000000000 0]
               false))
    = Some F64.zero /\
  oldest_in_window (30000000000 - 15000000000)
    [entry.mk 30000000000 1000; entry.mk 0 500; entry.mk 20000000000 0]
    = Some (entry.mk 20000000000 0) /\
  F64.div (F64.div (F64.of_Z (U64.sub 1000 0)) (F64.of_Z 1000))
    (Duration.Minutes 15000000000)
    = S754_finite false 4503599627370496 (-50).
Proof. repeat split; vm_compute; reflexivity. Qed.

(** C7: for every state, reachable or not, and every strictly positive
    duration [d], [GetFlow(d)] returns a finite value that is not below
    zero. *)
Theorem GetFlow_nonnegative w now d :
  0 < d <= Duration.max_int64 ->
  exists r w',
    GetFlow now d w = Some (r, w') /\
    F64.leb F64.zero r = true /\ F64.is_finite r = true.
Proof.
  intros Hd. rewrite GetFlow_eq. eexists; eexists. split; [reflexivity|].
  pose proof (Minutes_pos_finite d Hd) as Hm.
  match goal with |- context [flow_rate ?delta _] => set (dl := delta) end.
  assert (Hr : 0 <= dl < U64.modulus) by apply U64_wrap_range.
  destruct (Z.eq_dec dl 0) as [H0|H0].
  - rewrite H0, (flow_rate_zero _ _ _ Hm). split; reflexivity.
  - destruct (flow_rate_pos_finite dl _ ltac:(lia) Hm) as (m & e & Hf & _).
    rewrite Hf. split; reflexivity.
Qed.

Lemma GetFlow_nonnegative_witness :
  0 < 60000000000 <= Duration.max_int64 /\
  exists r w',
    GetFlow 5 60000000000 (meter 0 false false) = Some (r, w') /\
    F64.leb F64.zero r = true /\ F64.is_finite r = true.
Proof.
  assert (H : 0 < 60000000000 <= Duration.max_int64).
  { unfold Duration.max_int64. lia. }
  split; [exact H|].
  exact (GetFlow_nonnegative (meter 0 false false) 5 60000000000 H).
Defined.

(** ** Order of the history *)

Lemma Update_ordered f now mGallons w spawned w' :
  Update now mGallons w = Some (spawned, w') ->
  nondecreasing f (rev (events w)) ->
  Forall (fun a => f a <= f (Update_entry now mGallons w)) (events w) ->
  nondecreasing f (rev (events w')) /\
  Forall (fun a => f a <= f (Update_entry now mGallons w)) (events w').
Proof.
  intros Hu Hord Hall.
  destruct (Update_returns now mGallons w)
    as (sp & w1 & kept & dropped & Hu1 & _ & Hev & _ & _ & _ & _ & Hsplit & _).
  rewrite Hu in Hu1. inversion Hu1; subst sp w1. rewrite Hev.
  assert (Hfull : nondecreasing f (rev (Update_entry now mGallons w :: events w))).
  { simpl rev. apply nondecreasing_snoc; [exact Hord|]. apply Forall_rev. exact Hall. }
  rewrite Hsplit, rev_app_distr in Hfull.
  apply nondecreasing_app in Hfull. destruct Hfull as (_ & Hk & _).
  split; [exact Hk|].
  assert (Hall' : Forall (fun a => f a <= f (Update_entry now mGallons w))
                    (Update_entry now mGallons w :: events w)).
  { constructor; [lia | exact Hall]. }
  rewrite Hsplit in Hall'. apply Forall_app in Hall'. exact (proj1 Hall').
Qed.

Lemma run_time_ordered calls : forall w last,
  clock_nondecreasing last calls ->
  time_ordered (events w) ->
  Forall (fun a => entry.time a <= last) (events w) ->
  exists w', run calls w = Some (tt, w') /\ time_ordered (events w').
Proof.
  induction calls as [|[now m] rest IH]; intros w last Hclock Hord Hall.
  - exists w. split; [reflexivity | exact Hord].
  - destruct Hclock as [Hle Hclock].
    destruct (Update_returns now m w) as (sp & w1 & kept & dropped & Hu & _).
    destruct (Update_ordered entry.time now m w sp w1 Hu Hord) as [Hord1 Hall1].
    { eapply Forall_impl; [|exact Hall]. intros a Ha. simpl in *. lia. }
    destruct (IH w1 now Hclock Hord1 Hall1) as (w' & Hr & Hw').
    exists w'. split; [|exact Hw'].
    simpl. unfold bind. rewrite Hu. exact Hr.
Qed.

Lemma sum_deltas_nonneg calls :
  Forall (fun c => 0 <= snd c) calls -> 0 <= sum_deltas calls.
Proof.
  induction 1 as [|c l Hc _ IH]; unfold sum_deltas in *; simpl; lia.
Qed.

Lemma run_total_ordered calls : forall w,
  0 <= total w ->
  Forall (fun c => 0 <= snd c) calls ->
  total w + sum_deltas calls < U64.modulus ->
  total_ordered (events w) ->
  Forall (fun a => entry.total a <= total w) (events w) ->
  exists w', run calls w = Some (tt, w') /\ total_ordered (events w').
Proof.
  induction calls as [|[now m] rest IH]; intros w Hw Hpos Hsum Hord Hall.
  - exists w. split; [reflexivity | exact Hord].
  - inversion Hpos as [|c l Hm Hrest]; subst. simpl in Hm.
    pose proof (sum_deltas_nonneg rest Hrest) as Hnn.
    change (sum_deltas ((now, m) :: rest)) with (m + sum_deltas rest) in Hsum.
    destruct (Update_returns now m w) as (sp & w1 & kept & dropped & Hu & Ht & _).
    assert (Hadd : U64.add (total w) m = total w + m).
    { apply wrap_small. unfold U64.in_range. lia. }
    rewrite Hadd in Ht.
    destruct (Update_ordered entry.total now m w sp w1 Hu Hord) as [Hord1 Hall1].
    { eapply Forall_impl; [|exact Hall]. intros a Ha. simpl in *. rewrite Hadd. lia. }
    simpl in Hall1. rewrite Hadd, <- Ht in Hall1.
    destruct (IH w1) as (w' & Hr & Hw'); try assumption; try lia.
    exists w'. split; [|exact Hw'].
    simpl. unfold bind. rewrite Hu. exact Hr.
Qed.

(** C5, as amended: for every sequence of [Update] calls made while the
    injected clock returns non-decreasing instants, the history traversed
    from oldest to newest has non-decreasing timestamps; it has
    non-decreasing totals provided the running total does not wrap around,
    that is, initial + d1 + ... + dn < 2^64. *)
Theorem history_is_ordered now0 initial calls w :
  clock_nondecreasing now0 calls ->
  exists evs,
    result (history_after now0 initial calls w) = Some evs /\
    time_ordered evs /\
    (U64.in_range initial ->
     Forall (fun c => 0 <= snd c) calls ->
     initial + sum_deltas calls < U64.modulus ->
     total_ordered evs).
Proof.
  intros Hclock. unfold history_after, bind at 1. rewrite Init_eq.
  match goal with |- context [bind (run calls) ?k ?s] =>
    set (w1 := s); unfold bind at 1 end.
  destruct (run_time_ordered calls w1 now0 Hclock) as (w' & Hr & Htime).
  { unfold time_ordered. simpl. repeat split; constructor. }
  { simpl. repeat constructor. simpl. lia. }
  rewrite Hr. exists (events w'). split; [reflexivity|]. split; [exact Htime|].
  intros Hin Hpos Hsum.
  destruct (run_total_ordered calls w1) as (w'' & Hr' & Htot); try assumption.
  - simpl. destruct Hin. assumption.
  - unfold total_ordered. simpl. repeat split; constructor.
  - simpl. repeat constructor. simpl. lia.
  - rewrite Hr in Hr'. inversion Hr'; subst. exact Htot.
Qed.

Lemma history_is_ordered_witness :
  clock_nondecreasing 0 [(1000000000, 500); (2000000000, 600)] /\
  exists evs,
    result (history_after 0 0 [(1000000000, 500); (2000000000, 600)]
              (meter 60000000000 true true)) = Some evs /\
    time_ordered evs.
Proof.
  assert (H : clock_nondecreasing 0 [(1000000000, 500); (2000000000, 600)]).
  { simpl. lia. }
  split; [exact H|].
  destruct (history_is_ordered 0 0 [(1000000000, 500); (2000000000, 600)]
              (meter 60000000000 true true) H) as (evs & He & Ht & _).
  exists evs. split; assumption.
Defined.

(** C5 as stated fails when the total wraps around: with a constant clock,
    [Update(1)] after [Init(2^64 - 1)] appends a sample of total 0 in front
    of the sample of total 2^64 - 1. *)
Lemma history_totals_wrap_counterexample :
  clock_nondecreasing 0 [(0, 1)] /\
  result (history_after 0 18446744073709551615 [(0, 1)] (meter 0 false false))
    = Some [entry.mk 0 0; entry.mk 0 18446744073709551615] /\
  ~ total_ordered [entry.mk 0 0; entry.mk 0 18446744073709551615].
Proof.
  split; [simpl; lia|]. split; [vm_compute; reflexivity|].
  unfold total_ordered. simpl. intros [H _].
  inversion H as [|a l Ha _]; subst. simpl in Ha. lia.
Qed.

(** ** The usage hook *)

Lemma sub_pos_iff a b :
  0 <= a < U64.modulus -> 0 <= b < U64.modulus ->
  (U64.sub a b >? 0) = negb (a =? b).
Proof.
  unfold U64.sub, U64.wrap, U64.modulus. intros Ha Hb.
  pose proof (Z.mod_pos_bound (a - b) (2 ^ 64) ltac:(lia)) as Hm.
  pose proof (Z.div_mod (a - b) (2 ^ 64) ltac:(lia)) as Hdm.
  destruct (Z.eqb_spec a b) as [->|Hne]; cbn [negb].
  - rewrite Z.sub_diag. reflexivity.
  - rewrite Z.gtb_ltb. apply Z.ltb_lt.
    destruct (Z.eq_dec ((a - b) mod 2 ^ 64) 0) as [Hz|Hz]; [|lia].
    rewrite Hz in Hdm. lia.
Qed.

Lemma div1000_range z : 0 <= z < U64.modulus -> 0 <= z / 1000 < U64.modulus.
Proof.
  unfold U64.modulus. intros H. split; [apply Z.div_pos; lia|].
  apply Z.div_lt_upper_bound; lia.
Qed.

(** The goroutines [Update] starts and what it does to [lastGallon]. *)
Lemma Update_notifications now mGallons w :
  U64.in_range (total w) ->
  exists spawned w',
    Update now mGallons w = Some (spawned, w') /\
    (entry.total (Update_entry now mGallons w) / 1000 <> total w / 1000 ->
     filter is_usage spawned =
       (if Usage w
        then [GoUsage (entry.total (Update_entry now mGallons w) / 1000)
                (flow_rate
                   (U64.sub (entry.total (Update_entry now mGallons w))
                      (entry.total (lastGallon w)))
                   (Duration.Minutes (Time.Sub now (entry.time (lastGallon w)))))]
        else []) /\
     lastGallon w' = Update_entry now mGallons w) /\
    (entry.total (Update_entry now mGallons w) / 1000 = total w / 1000 ->
     filter is_usage spawned = [] /\ lastGallon w' = lastGallon w).
Proof.
  intros Hin.
  destruct (prune_loop_returns (Update_prune now w)
              (Update_entry now mGallons w :: events w) ltac:(discriminate))
    as (kept & dropped & Hk & _).
  rewrite (Update_eq _ _ _ _ Hk).
  unfold Update_notify, U64.div. simpl entry.total.
  rewrite sub_pos_iff
    by (apply div1000_range; first [apply U64_wrap_range | exact Hin]).
  unfold bind, gets, modify, ret. simpl.
  destruct (Z.eqb_spec (U64.add (total w) mGallons / 1000) (total w / 1000))
    as [Heq|Hne]; simpl.
  - eexists; eexists. split; [reflexivity|]. split; [intros H; contradiction|].
    intros _. simpl. destruct (Change w); split; reflexivity.
  - eexists; eexists. split; [reflexivity|]. split; [|intros H; contradiction].
    intros _. simpl. destruct (Usage w), (Change w); split; reflexivity.
Qed.

(** C6, as amended: in every [Update] call in which floor(total / 1000)
    changes, a registered [Usage] hook is started exactly once, with the new
    whole-gallon count and the rate
    (new total - lastGallon.total) / 1000 / minutes elapsed since
    lastGallon.time, and [lastGallon] becomes the entry the call appended;
    in every call in which the floor stays the same the hook is not started
    and [lastGallon] is unchanged. *)
Theorem Update_usage_hook now mGallons w :
  U64.in_range (total w) ->
  exists spawned w',
    Update now mGallons w = Some (spawned, w') /\
    (U64.add (total w) mGallons / 1000 <> total w / 1000 ->
     filter is_usage spawned =
       (if Usage w
        then [GoUsage (U64.add (total w) mGallons / 1000)
                (F64.div
                   (F64.div
                      (F64.of_Z (U64.sub (U64.add (total w) mGallons)
                                   (entry.total (lastGallon w))))
                      (F64.of_Z 1000))
                   (Duration.Minutes (Time.Sub now (entry.time (lastGallon w)))))]
        else []) /\
     lastGallon w' = entry.mk now (U64.add (total w) mGallons)) /\
    (U64.add (total w) mGallons / 1000 = total w / 1000 ->
     filter is_usage spawned = [] /\ lastGallon w' = lastGallon w).
Proof. intros Hin. exact (Update_notifications now mGallons w Hin). Qed.

Lemma Update_usage_hook_witness :
  U64.in_range (total (mkWatermeter 60000000000 true true (entry.mk 0 0) 500
                         [entry.mk 1000000000 500; entry.mk 0 0] false)) /\
  exists spawned w',
    Update 2000000000 600
      (mkWatermeter 60000000000 true true (entry.mk 0 0) 500
         [entry.mk 1000000000 500; entry.mk 0 0] false) = Some (spawned, w') /\
    filter is_usage spawned =
      [GoUsage 1 (S754_finite false 4644337115725824 (-47))] /\
    lastGallon w' = entry.mk 2000000000 1100.
Proof.
  assert (H : U64.in_range
                (total (mkWatermeter 60000000000 true true (entry.mk 0 0) 500
                          [entry.mk 1000000000 500; entry.mk 0 0] false))).
  { unfold U64.in_range, U64.modulus. simpl. lia. }
  split; [exact H|].
  destruct (Update_usage_hook 2000000000 600 _ H) as (sp & w' & Hu & Hch & _).
  exists sp, w'. split; [exact Hu|].
  destruct Hch as [Hf Hl]; [vm_compute; discriminate|].
  split; [exact Hf | exact Hl].
Defined.

(** C6 as stated fails when the total wraps around: from the total 2^64 - 1,
    [Update(1)] takes floor(total / 1000) down from 18446744073709551 to 0;
    the floor does not increase, yet the hook is started (with 0 gallons) and
    [lastGallon] is moved. *)
Lemma usage_hook_on_wrap_counterexample :
  (Init 0 18446744073709551615 ;;; Update 60000000000 1)
    (meter 60000000000 true false) =
  Some ([GoUsage 0 (S754_finite false 4611686018427388 (-62))],
        mkWatermeter 60000000000 true false (entry.mk 60000000000 0) 0
          [entry.mk 60000000000 0; entry.mk 0 18446744073709551615] false) /\
  0 / 1000 < 18446744073709551615 / 1000 /\
  entry.mk 60000000000 0 <> entry.mk 0 18446744073709551615.
Proof.
  split; [vm_compute; reflexivity|]. split; [vm_compute; reflexivity|].
  discriminate.
Qed.

(** ** Division by zero minutes *)

(** What the two divisions by zero minutes give.  [GetFlow] with a zero
    duration returns NaN when the volume delta is zero and +Inf otherwise; a
    whole-unit crossing with no time elapsed since [lastGallon] hands a
    registered [Usage] hook NaN when the delta from [lastGallon] is zero and
    +Inf otherwise.  Both values are the quotients of binary64 division;
    neither method tests its divisor. *)
Theorem zero_minutes_edge_cases :
  (forall w now,
     exists w',
       GetFlow now 0 w =
       Some (if U64.sub (total w)
                  (entry.total (walk now (entry.mk now (total w)) (events w)))
                =? 0
             then F64.nan else F64.infinity, w')) /\
  (forall now mGallons w,
     U64.in_range (total w) ->
     Usage w = true ->
     entry.time (lastGallon w) = now ->
     U64.add (total w) mGallons / 1000 <> total w / 1000 ->
     exists spawned w',
       Update now mGallons w = Some (spawned, w') /\
       filter is_usage spawned =
       [GoUsage (U64.add (total w) mGallons / 1000)
          (if U64.sub (U64.add (total w) mGallons) (entry.total (lastGallon w))
              =? 0
           then F64.nan else F64.infinity)]).
Proof.
  split.
  - intros w now. rewrite GetFlow_eq. eexists. f_equal. f_equal.
    change (Duration.neg 0) with 0. unfold Time.Add. rewrite Z.add_0_r.
    rewrite Minutes_zero. apply flow_rate_by_zero. apply U64_wrap_range.
  - intros now m w Hin Husage Hlast Hcross.
    destruct (Update_notifications now m w Hin) as (sp & w' & Hu & Hch & _).
    exists sp, w'. split; [exact Hu|].
    destruct (Hch Hcross) as [Hf _]. rewrite Hf, Husage, Hlast.
    unfold Time.Sub. rewrite Z.sub_diag.
    change (Z.max Duration.min_int64 (Z.min Duration.max_int64 0)) with 0.
    rewrite Minutes_zero, flow_rate_by_zero by apply U64_wrap_range.
    reflexivity.
Qed.

Lemma zero_minutes_edge_cases_witness :
  U64.in_range (total (mkWatermeter 60 true false (entry.mk 5 500) 500
                         [entry.mk 5 500; entry.mk 0 0] false)) /\
  Usage (mkWatermeter 60 true false (entry.mk 5 500) 500
           [entry.mk 5 500; entry.mk 0 0] false) = true /\
  entry.time (lastGallon (mkWatermeter 60 true false (entry.mk 5 500) 500
                            [entry.mk 5 500; entry.mk 0 0] false)) = 5 /\
  U64.add 500 600 / 1000 <> 500 / 1000 /\
  exists spawned w',
    Update 5 600 (mkWatermeter 60 true false (entry.mk 5 500) 500
                    [entry.mk 5 500; entry.mk 0 0] false) = Some (spawned, w') /\
    filter is_usage spawned = [GoUsage 1 F64.infinity].
Proof.
  assert (H1 : U64.in_range
                 (total (mkWatermeter 60 true false (entry.mk 5 500) 500
                           [entry.mk 5 500; entry.mk 0 0] false))).
  { unfold U64.in_range, U64.modulus. simpl. lia. }
  assert (H4 : U64.add 500 600 / 1000 <> 500 / 1000).
  { vm_compute. discriminate. }
  split; [exact H1|]. split; [reflexivity|]. split; [reflexivity|].
  split; [exact H4|].
  exact (proj2 zero_minutes_edge_cases 5 600 _ H1 eq_refl eq_refl H4).
Defined.

(** ** A read between two locks *)

(** C9 fails on the code: [GetFlow] reads [w.total] before it takes the
    mutex.  When a whole [Update(1000)] runs between the read and the lock,
    [GetFlow(1s)] subtracts the new front sample (total 1000) from the old
    total 0 in [uint64], and returns about 1.1e18 gallons per minute, where
    the query run wholly before or wholly after the update returns 0. *)
Theorem GetFlow_torn_read :
  reachable (mkWatermeter 60000000000 false false (entry.mk 0 0) 0
               [entry.mk 0 0] false) /\
  result (GetFlow_interleaved 10000000000 1000000000 10000000000 1000
            (mkWatermeter 60000000000 false false (entry.mk 0 0) 0
               [entry.mk 0 0] false))
    = Some (S754_finite false 8646911284551353 7) /\
  result (GetFlow 10000000000 1000000000
            (mkWatermeter 60000000000 false false (entry.mk 0 0) 0
               [entry.mk 0 0] false))
    = Some F64.zero /\
  result ((Update 10000000000 1000 ;;; GetFlow 10000000000 1000000000)
            (mkWatermeter 60000000000 false false (entry.mk 0 0) 0
               [entry.mk 0 0] false))
    = Some F64.zero.
Proof.
  split.
  - apply (reach_Init 0 0 (meter 60000000000 false false)). reflexivity.
  - repeat split; vm_compute; reflexivity.
Qed.

(** * Further properties of the methods *)

(** ** What [Update] starts and what it writes *)

(** X1: every [Update] call starts the [Change] hook exactly once when it
    is registered and never otherwise, before the [Usage] goroutine, of which
    there is at most one. *)
Theorem Update_change_hook now mGallons w :
  exists spawned w',
    Update now mGallons w = Some (spawned, w') /\
    spawned = (if Change w then [GoChange] else []) ++ filter is_usage spawned /\
    filter is_change spawned = (if Change w then [GoChange] else []) /\
    (length (filter is_usage spawned) <= 1)%nat.
Proof.
  destruct (prune_loop_returns (Update_prune now w)
              (Update_entry now mGallons w :: events w) ltac:(discriminate))
    as (kept & dropped & Hk & _).
  rewrite (Update_eq _ _ _ _ Hk).
  unfold Update_notify, bind, gets, modify, ret. simpl.
  destruct (U64.sub _ _ >? 0); destruct (Change w); try destruct (Usage w);
    eexists; eexists; (split; [reflexivity|]); simpl;
    (split; [reflexivity|]); (split; [reflexivity|]); repeat constructor.
Qed.

(** X2: [Update] writes the total, the history and [lastGallon] only: the
    retention window and the two hooks are as before, the mutex is released,
    and the new total is the old one plus the argument, modulo 2^64. *)
Theorem Update_frame now mGallons w :
  exists spawned w',
    Update now mGallons w = Some (spawned, w') /\
    Timeout w' = Timeout w /\ Usage w' = Usage w /\ Change w' = Change w /\
    mutex w' = false /\
    total w' = (total w + mGallons) mod 2 ^ 64.
Proof.
  destruct (prune_loop_returns (Update_prune now w)
              (Update_entry now mGallons w :: events w) ltac:(discriminate))
    as (kept & dropped & Hk & _).
  rewrite (Update_eq _ _ _ _ Hk).
  match goal with |- context [Update_notify ?b ?s] =>
    destruct (Update_notify_state b s)
      as (spawned & w' & Hn & Ht & Hu & Hc & Htot & Hev & Hmu) end.
  exists spawned, w'. rewrite Hn. simpl in *. repeat split; assumption.
Qed.

(** ** What the pruning keeps *)

Lemma prune_loop_stops prune n : forall evs kept,
  (length evs <= n)%nat ->
  prune_loop prune evs = Some kept ->
  Len kept < 3 \/ oldest_is_stale prune kept = false.
Proof.
  induction n as [|n IH]; intros evs kept Hn.
  - destruct evs; [|simpl in Hn; lia].
    rewrite prune_loop_unroll. discriminate.
  - rewrite prune_loop_unroll. unfold prune_step.
    destruct evs as [|x xs]; [discriminate|].
    destruct (Back_cons x xs) as [e He]. rewrite He.
    pose proof (length_RemoveBack (x :: xs) ltac:(discriminate)) as HL.
    destruct (Time.Before (entry.time e) prune) eqn:Hb.
    + destruct (3 >? Len (RemoveBack (x :: xs))) eqn:H3.
      * intros H. injection H as <-. left. apply Z.gtb_lt in H3. exact H3.
      * apply IH. simpl length in *. lia.
    + assert (Hs : oldest_is_stale prune (x :: xs) = false).
      { unfold oldest_is_stale. rewrite He. exact Hb. }
      destruct (3 >? Len (x :: xs)); intros H; injection H as <-; right; exact Hs.
Qed.

(** X3: the history an [Update] call leaves is the entry it appended
    followed by the old history without some of its oldest entries, in the
    old order; every entry it removed is strictly older than
    [now - Timeout], so a fresh entry of the old history is never lost, and
    the history grows by at most one entry. *)
Theorem Update_history_shape now mGallons w :
  events w <> [] ->
  exists spawned w' kept_old dropped,
    Update now mGallons w = Some (spawned, w') /\
    events w' = Update_entry now mGallons w :: kept_old /\
    events w = kept_old ++ dropped /\
    Forall (stale (Update_prune now w)) dropped /\
    (forall x, In x (events w) -> fresh (Update_prune now w) x ->
               In x (events w')).
Proof.
  intros Hne.
  destruct (Update_returns now mGallons w)
    as (sp & w' & kept & dropped & Hu & _ & Hev & _ & _ & _ & _ & Hsplit & Hst & _ & H1).
  assert (Hk : 1 <= Len kept).
  { apply H1. destruct (events w); [congruence|]. unfold Len. simpl length. lia. }
  destruct kept as [|k ks]; [unfold Len in Hk; simpl in Hk; lia|].
  simpl in Hsplit. inversion Hsplit as [[Hk0 Hold]]. subst k.
  exists sp, w', ks, dropped. repeat split; try assumption.
  intros x Hin Hfresh. rewrite Hev. right.
  rewrite Hold in Hin. apply in_app_or in Hin. destruct Hin as [Hin|Hin]; [exact Hin|].
  rewrite Forall_forall in Hst. specialize (Hst x Hin).
  unfold stale, fresh in *. lia.
Qed.

Lemma Update_history_shape_witness :
  events (mkWatermeter 10 false false (entry.mk 0 0) 7
            [entry.mk 95 7; entry.mk 50 3; entry.mk 0 0] false) <> [] /\
  exists spawned w' kept_old dropped,
    Update 100 5 (mkWatermeter 10 false false (entry.mk 0 0) 7
                    [entry.mk 95 7; entry.mk 50 3; entry.mk 0 0] false)
      = Some (spawned, w') /\
    events w' = entry.mk 100 12 :: kept_old /\
    [entry.mk 95 7; entry.mk 50 3; entry.mk 0 0] = kept_old ++ dropped.
Proof.
  assert (H : events (mkWatermeter 10 false false (entry.mk 0 0) 7
                        [entry.mk 95 7; entry.mk 50 3; entry.mk 0 0] false) <> [])
    by discriminate.
  split; [exact H|].
  destruct (Update_history_shape 100 5 _ H)
    as (sp & w' & ko & dr & Hu & He & Hs & _).
  exists sp, w', ko, dr. repeat split; assumption.
Defined.

(** X4: when the entry appended and every entry of the old history are
    fresh (not older than [now - Timeout]), [Update] prunes nothing: the new
    history is the old one with the new entry in front, however long it
    is. *)
Theorem Update_prunes_nothing_fresh now mGallons w :
  Forall (fresh (Update_prune now w)) (Update_entry now mGallons w :: events w) ->
  exists spawned w',
    Update now mGallons w = Some (spawned, w') /\
    events w' = Update_entry now mGallons w :: events w.
Proof.
  intros Hfresh.
  destruct (Update_returns now mGallons w)
    as (sp & w' & kept & dropped & Hu & _ & Hev & _ & _ & _ & _ & Hsplit & Hst & _).
  exists sp, w'. split; [exact Hu|]. rewrite Hev.
  destruct dropped as [|d ds].
  - rewrite app_nil_r in Hsplit. congruence.
  - exfalso. rewrite Hsplit in Hfresh. apply Forall_app in Hfresh.
    destruct Hfresh as [_ Hf]. inversion Hf; subst. inversion Hst; subst.
    unfold stale, fresh in *. lia.
Qed.

Lemma Update_prunes_nothing_fresh_witness :
  Forall (fresh (Update_prune 5 (mkWatermeter 60 false false (entry.mk 0 0) 200
                                   [entry.mk 5 200; entry.mk 5 100; entry.mk 0 0] false)))
    (Update_entry 5 100 (mkWatermeter 60 false false (entry.mk 0 0) 200
                           [entry.mk 5 200; entry.mk 5 100; entry.mk 0 0] false)
     :: [entry.mk 5 200; entry.mk 5 100; entry.mk 0 0]) /\
  exists spawned w',
    Update 5 100 (mkWatermeter 60 false false (entry.mk 0 0) 200
                    [entry.mk 5 200; entry.mk 5 100; entry.mk 0 0] false)
      = Some (spawned, w') /\
    events w' = [entry.mk 5 300; entry.mk 5 200; entry.mk 5 100; entry.mk 0 0].
Proof.
  assert (H : Forall (fresh (Update_prune 5 (mkWatermeter 60 false false (entry.mk 0 0) 200
                                   [entry.mk 5 200; entry.mk 5 100; entry.mk 0 0] false)))
    (Update_entry 5 100 (mkWatermeter 60 false false (entry.mk 0 0) 200
                           [entry.mk 5 200; entry.mk 5 100; entry.mk 0 0] false)
     :: [entry.mk 5 200; entry.mk 5 100; entry.mk 0 0])).
  { repeat constructor; vm_compute; discriminate. }
  split; [exact H|].
  exact (Update_prunes_nothing_fresh 5 100 _ H).
Defined.

Lemma ordered_back_least evs b :
  time_ordered evs -> Back evs = Some b ->
  Forall (fun x => entry.time b <= entry.time x) evs.
Proof.
  unfold time_ordered. intros Hord Hb.
  rewrite (RemoveBack_split evs b Hb) in *.
  rewrite rev_app_distr in Hord. simpl in Hord. destruct Hord as [Hall _].
  apply Forall_app. split.
  - apply Forall_rev in Hall. rewrite rev_involutive in Hall. exact Hall.
  - constructor; [lia | constructor].
Qed.

(** X5: the pruning goes as far as it may: after an [Update] call the
    history holds at most 2 samples or its oldest sample is fresh; so when
    more than 2 samples are left in a history in time order, every sample
    left is fresh. *)
Theorem Update_prunes_all_stale now mGallons w :
  exists spawned w',
    Update now mGallons w = Some (spawned, w') /\
    (Len (events w') <= 2 \/
     oldest_is_stale (Update_prune now w) (events w') = false) /\
    (2 < Len (events w') -> time_ordered (events w') ->
     Forall (fresh (Update_prune now w)) (events w')).
Proof.
  destruct (Update_returns now mGallons w)
    as (sp & w' & kept & dropped & Hu & _ & Hev & _ & _ & _ & Hk & _).
  exists sp, w'. split; [exact Hu|]. rewrite Hev.
  pose proof (prune_loop_stops _ _ _ _ (Nat.le_refl _) Hk) as Hstop.
  split; [destruct Hstop; [left; lia | right; assumption]|].
  intros Hlen Hord. destruct Hstop as [Hlt|Hfr]; [lia|].
  unfold oldest_is_stale in Hfr.
  destruct (Back kept) as [b|] eqn:Hb.
  - pose proof (ordered_back_least kept b Hord Hb) as Hall.
    eapply Forall_impl; [|exact Hall]. intros x Hx. simpl in Hx.
    unfold fresh. unfold Time.Before in Hfr. apply Z.ltb_ge in Hfr. lia.
  - destruct kept; [unfold Len in Hlen; simpl in Hlen; lia | discriminate].
Qed.

(** ** The history as a record of the calls *)

Lemma run_appended calls : forall w,
  exists w' older,
    run calls w = Some (tt, w') /\
    rev (appended (total w) calls) ++ events w = events w' ++ older /\
    (events w <> [] -> events w' <> []).
Proof.
  induction calls as [|[now m] rest IH]; intros w.
  - exists w, []. rewrite app_nil_r. repeat split; auto.
  - destruct (Update_returns now m w)
      as (sp & w1 & kept & dropped & Hu & Ht & Hev & _ & _ & _ & _ & Hsplit & _ & _ & H1).
    destruct (IH w1) as (w' & older & Hr & Happ & Hne).
    exists w', (older ++ dropped). split; [|split].
    + simpl. unfold bind. rewrite Hu. exact Hr.
    + simpl appended. simpl rev. rewrite <- app_assoc. simpl app.
      fold (Update_entry now m w). rewrite Hsplit, <- Hev.
      rewrite app_assoc, <- Ht, Happ, <- app_assoc. reflexivity.
    + intros Hw. apply Hne. intros Hk.
      assert (H : 1 <= Len kept) by
        (apply H1; destruct (events w); [congruence | unfold Len; simpl length; lia]).
      rewrite <- Hev, Hk in H. unfold Len in H. simpl in H. lia.
Qed.

(** X6: after [Init] and any sequence of [Update] calls the history is,
    newest first, the most recent samples of the record of all samples ever
    appended (the initial one and one per call, each with the running total
    modulo 2^64 after its call): none is altered, out of order or repeated,
    and the history is not empty. *)
Theorem history_is_recent_samples now0 initial calls w :
  exists evs older,
    result (history_after now0 initial calls w) = Some evs /\
    evs <> [] /\
    rev (appended initial calls) ++ [entry.mk now0 initial] = evs ++ older.
Proof.
  unfold history_after, bind at 1. rewrite Init_eq.
  match goal with |- context [bind (run calls) ?k ?s] =>
    set (w1 := s); unfold bind at 1 end.
  destruct (run_appended calls w1) as (w' & older & Hr & Happ & Hne).
  rewrite Hr. exists (events w'), older. split; [reflexivity|].
  split; [apply Hne; discriminate | exact Happ].
Qed.

(** ** More on [GetFlow] *)

Lemma walk_all then_ evs : forall start,
  Forall (fun e => in_window then_ e = true) evs ->
  walk then_ start evs =
  match Back evs with
  | Some b => b
  | None => start
  end.
Proof.
  induction evs as [|e rest IH]; intros start Hall; [reflexivity|].
  inversion Hall as [|a l He Hrest]; subst.
  simpl walk. rewrite walk_in_window, He, IH by exact Hrest.
  destruct rest as [|r rs]; [destruct e; reflexivity|]. reflexivity.
Qed.

(** X7: when every sample of a non-empty history is at or after [now - d],
    [GetFlow(d)] measures from the oldest sample kept, whatever the order of
    the timestamps: it returns (total - oldest.total) / 1000 / minutes(d). *)
Theorem GetFlow_whole_history w now d oldest :
  0 <= d <= Duration.max_int64 ->
  Back (events w) = Some oldest ->
  Forall (fun e => now - d <= entry.time e) (events w) ->
  exists w',
    GetFlow now d w =
    Some (F64.div
            (F64.div (F64.of_Z (U64.sub (total w) (entry.total oldest)))
               (F64.of_Z 1000))
            (Duration.Minutes d), w').
Proof.
  intros Hd Hb Hall. rewrite GetFlow_eq. eexists. unfold Time.Add.
  rewrite neg_small by exact Hd.
  replace (now + - d) with (now - d) by lia.
  rewrite walk_all, Hb; [reflexivity|].
  eapply Forall_impl; [|exact Hall]. intros e He. simpl in He.
  unfold in_window. apply Z.leb_le. exact He.
Qed.

Lemma GetFlow_whole_history_witness :
  0 <= 60000000000 <= Duration.max_int64 /\
  Back (events (mkWatermeter 60000000000 true true (entry.mk 2000000000 1100) 1100
                  [entry.mk 2000000000 1100; entry.mk 1000000000 500; entry.mk 0 0]
                  false)) = Some (entry.mk 0 0) /\
  Forall (fun e => 2000000000 - 60000000000 <= entry.time e)
    (events (mkWatermeter 60000000000 true true (entry.mk 2000000000 1100) 1100
               [entry.mk 2000000000 1100; entry.mk 1000000000 500; entry.mk 0 0]
               false)) /\
  exists w',
    GetFlow 2000000000 60000000000
      (mkWatermeter 60000000000 true true (entry.mk 2000000000 1100) 1100
         [entry.mk 2000000000 1100; entry.mk 1000000000 500; entry.mk 0 0]
         false) =
    Some (F64.div (F64.div (F64.of_Z (U64.sub 1100 0)) (F64.of_Z 1000))
            (Duration.Minutes 60000000000), w').
Proof.
  assert (H1 : 0 <= 60000000000 <= Duration.max_int64).
  { unfold Duration.max_int64. lia. }
  assert (H3 : Forall (fun e => 2000000000 - 60000000000 <= entry.time e)
    (events (mkWatermeter 60000000000 true true (entry.mk 2000000000 1100) 1100
               [entry.mk 2000000000 1100; entry.mk 1000000000 500; entry.mk 0 0]
               false))).
  { repeat constructor; simpl; lia. }
  split; [exact H1|]. split; [reflexivity|]. split; [exact H3|].
  exact (GetFlow_whole_history
           (mkWatermeter 60000000000 true true (entry.mk 2000000000 1100) 1100
              [entry.mk 2000000000 1100; entry.mk 1000000000 500; entry.mk 0 0]
              false)
           2000000000 60000000000 (entry.mk 0 0) H1 eq_refl H3).
Defined.

Lemma pos_finite_positive a b x : pos_finite a b x -> SFltb F64.zero x = true.
Proof. intros (m & e & -> & _). reflexivity. Qed.

(** X8: for a positive duration the rate [GetFlow] returns is zero exactly
    when the volume delta is zero; a delta that is not zero never rounds to
    a zero rate, it gives a finite rate above zero. *)
Theorem GetFlow_zero_iff_no_volume w now d :
  0 < d <= Duration.max_int64 ->
  exists r w',
    GetFlow now d w = Some (r, w') /\
    (U64.sub (total w)
       (entry.total (walk (now - d) (entry.mk now (total w)) (events w))) = 0 ->
     r = F64.zero) /\
    (U64.sub (total w)
       (entry.total (walk (now - d) (entry.mk now (total w)) (events w))) <> 0 ->
     SFltb F64.zero r = true /\ F64.is_finite r = true).
Proof.
  intros Hd. rewrite GetFlow_eq. eexists; eexists. split; [reflexivity|].
  unfold Time.Add. rewrite neg_small by lia.
  replace (now + - d) with (now - d) by lia.
  pose proof (Minutes_pos_finite d Hd) as Hm.
  match goal with |- context [flow_rate ?delta _] => set (dl := delta) end.
  assert (Hr : 0 <= dl < U64.modulus) by apply U64_wrap_range.
  split.
  - intros H0. rewrite H0. apply (flow_rate_zero _ _ _ Hm).
  - intros Hne.
    pose proof (flow_rate_pos_finite dl _ ltac:(lia) Hm) as Hf.
    split; [apply (pos_finite_positive _ _ _ Hf)|].
    destruct Hf as (m & e & -> & _). reflexivity.
Qed.

Lemma GetFlow_zero_iff_no_volume_witness :
  0 < 60000000000 <= Duration.max_int64 /\
  exists r w',
    GetFlow 2000000000 60000000000
      (mkWatermeter 60000000000 true true (entry.mk 2000000000 1100) 1100
         [entry.mk 2000000000 1100; entry.mk 1000000000 500; entry.mk 0 0]
         false) = Some (r, w') /\
    SFltb F64.zero r = true.
Proof.
  assert (H : 0 < 60000000000 <= Duration.max_int64).
  { unfold Duration.max_int64. lia. }
  split; [exact H|].
  destruct (GetFlow_zero_iff_no_volume
              (mkWatermeter 60000000000 true true (entry.mk 2000000000 1100) 1100
                 [entry.mk 2000000000 1100; entry.mk 1000000000 500; entry.mk 0 0]
                 false) 2000000000 60000000000 H) as (r & w' & Hg & _ & Hpos).
  exists r, w'. split; [exact Hg|].
  apply Hpos. vm_compute. discriminate.
Defined.

(** X9: when the newest sample is older than [now - d] (or the history is
    empty), [GetFlow(d)] stops at once and returns zero for every positive
    [d], whatever the older samples are. *)
Theorem GetFlow_newest_outside_window w now d :
  0 < d <= Duration.max_int64 ->
  match events w with
  | [] => True
  | newest :: _ => entry.time newest < now - d
  end ->
  exists w', GetFlow now d w = Some (F64.zero, w').
Proof.
  intros Hd Hout. rewrite GetFlow_eq. eexists. f_equal. f_equal.
  unfold Time.Add. rewrite neg_small by lia.
  replace (now + - d) with (now - d) by lia.
  assert (Hw : walk (now - d) (entry.mk now (total w)) (events w)
               = entry.mk now (total w)).
  { destruct (events w) as [|e rest]; [reflexivity|].
    simpl walk. rewrite walk_in_window. unfold in_window.
    replace (now - d <=? entry.time e) with false
      by (symmetry; apply Z.leb_gt; exact Hout).
    reflexivity. }
  rewrite Hw. simpl entry.total. unfold U64.sub. rewrite Z.sub_diag.
  change (U64.wrap 0) with 0.
  apply (flow_rate_zero _ _ _ (Minutes_pos_finite d Hd)).
Qed.

Lemma GetFlow_newest_outside_window_witness :
  0 < 1000000000 <= Duration.max_int64 /\
  match events (mkWatermeter 60000000000 true true (entry.mk 2000000000 1100) 1100
                  [entry.mk 2000000000 1100; entry.mk 1000000000 500] false) with
  | [] => True
  | newest :: _ => entry.time newest < 9000000000 - 1000000000
  end /\
  exists w',
    GetFlow 9000000000 1000000000
      (mkWatermeter 60000000000 true true (entry.mk 2000000000 1100) 1100
         [entry.mk 2000000000 1100; entry.mk 1000000000 500] false)
    = Some (F64.zero, w').
Proof.
  assert (H1 : 0 < 1000000000 <= Duration.max_int64).
  { unfold Duration.max_int64. lia. }
  assert (H2 : match events (mkWatermeter 60000000000 true true
                               (entry.mk 2000000000 1100) 1100
                  [entry.mk 2000000000 1100; entry.mk 1000000000 500] false) with
               | [] => True
               | newest :: _ => entry.time newest < 9000000000 - 1000000000
               end).
  { simpl. lia. }
  split; [exact H1|]. split; [exact H2|].
  exact (GetFlow_newest_outside_window
           (mkWatermeter 60000000000 true true (entry.mk 2000000000 1100) 1100
              [entry.mk 2000000000 1100; entry.mk 1000000000 500] false)
           9000000000 1000000000 H1 H2).
Defined.

(** X10: [Init] starts afresh whatever the state it is called on: right
    after it, [GetGallons] returns floor(initial / 1000) and [GetFlow(d)]
    returns zero for every positive duration and every later reading of the
    clock. *)
Theorem Init_then_reads now0 initial w now d :
  0 < d <= Duration.max_int64 ->
  result ((Init now0 initial ;;; GetGallons) w) = Some (initial / 1000) /\
  result ((Init now0 initial ;;; GetFlow now d) w) = Some F64.zero.
Proof.
  intros Hd. split; [reflexivity|].
  unfold bind at 1. rewrite Init_eq, GetFlow_eq. unfold result. simpl.
  f_equal.
  assert (Hdelta : forall s : entry.t,
            entry.total s = initial -> U64.sub initial (entry.total s) = 0).
  { intros s ->. unfold U64.sub. rewrite Z.sub_diag. reflexivity. }
  rewrite Hdelta.
  - apply (flow_rate_zero _ _ _ (Minutes_pos_finite d Hd)).
  - destruct (_ || _); reflexivity.
Qed.

Lemma Init_then_reads_witness :
  0 < 60000000000 <= Duration.max_int64 /\
  result ((Init 0 2500 ;;; GetFlow 5 60000000000) (meter 10 true true))
    = Some F64.zero.
Proof.
  assert (H : 0 < 60000000000 <= Duration.max_int64).
  { unfold Duration.max_int64. lia. }
  split; [exact H|].
  exact (proj2 (Init_then_reads 0 2500 (meter 10 true true) 5 60000000000 H)).
Defined.

(** ** [lastGallon] and the usage hook *)

Lemma Update_settled now mGallons w spawned w' :
  settled w -> Update now mGallons w = Some (spawned, w') -> settled w'.
Proof.
  intros (Hin & Hlin & Hfloor) Hu.
  destruct (Update_returns now mGallons w) as (sp1 & w1 & kept & dropped & Hu1 & Ht & _).
  destruct (Update_notifications now mGallons w Hin) as (sp2 & w2 & Hu2 & Hch & Hsame).
  rewrite Hu in Hu1, Hu2. inversion Hu1; subst sp1 w1. inversion Hu2; subst sp2 w2.
  simpl entry.total in Hch, Hsame.
  assert (Hr : U64.in_range (U64.add (total w) mGallons)) by apply U64_wrap_range.
  unfold settled. rewrite Ht.
  destruct (Z.eq_dec (U64.add (total w) mGallons / 1000) (total w / 1000)) as [Heq|Hne].
  - destruct (Hsame Heq) as [_ Hl]. rewrite Hl. repeat split; try apply Hr; try apply Hlin.
    congruence.
  - destruct (Hch Hne) as [_ Hl]. rewrite Hl. unfold Update_entry. simpl.
    repeat split; apply Hr.
Qed.

Lemma run_settled calls : forall w,
  settled w -> exists w', run calls w = Some (tt, w') /\ settled w'.
Proof.
  induction calls as [|[now m] rest IH]; intros w Hs.
  - exists w. split; [reflexivity | exact Hs].
  - destruct (Update_returns now m w) as (sp & w1 & kept & dropped & Hu & _).
    destruct (IH w1 (Update_settled _ _ _ _ _ Hs Hu)) as (w' & Hr & Hs').
    exists w'. split; [|exact Hs']. simpl. unfold bind. rewrite Hu. exact Hr.
Qed.

(** X11: after [Init] and any sequence of [Update] calls, [lastGallon] is
    in the same whole gallon as the running total:
    floor(lastGallon.total / 1000) = floor(total / 1000), also when the
    total has wrapped around. *)
Theorem lastGallon_in_current_gallon now0 initial calls w :
  U64.in_range initial ->
  exists w',
    (Init now0 initial ;;; run calls) w = Some (tt, w') /\
    entry.total (lastGallon w') / 1000 = total w' / 1000 /\
    GetGallons w' = Some (entry.total (lastGallon w') / 1000, w').
Proof.
  intros Hin. unfold bind. rewrite Init_eq.
  match goal with |- context [run calls ?s] => set (w1 := s) end.
  destruct (run_settled calls w1) as (w' & Hr & (_ & _ & Hfloor)).
  { unfold settled. simpl. repeat split; apply Hin. }
  exists w'. rewrite Hr. split; [reflexivity|]. split; [exact Hfloor|].
  rewrite GetGallons_eq, Hfloor. reflexivity.
Qed.

Lemma lastGallon_in_current_gallon_witness :
  U64.in_range 18446744073709551615 /\
  exists w',
    (Init 0 18446744073709551615 ;;; run [(5, 1); (6, 2500)])
      (meter 60 true true) = Some (tt, w') /\
    entry.total (lastGallon w') / 1000 = total w' / 1000.
Proof.
  assert (H : U64.in_range 18446744073709551615).
  { unfold U64.in_range, U64.modulus. lia. }
  split; [exact H|].
  destruct (lastGallon_in_current_gallon 0 18446744073709551615
              [(5, 1); (6, 2500)] (meter 60 true true) H) as (w' & Hr & Hf & _).
  exists w'. split; assumption.
Defined.

(** X12: the whole-gallon count an [Update] call hands to the [Usage] hook
    is the count [GetGallons] returns right after the call. *)
Theorem Usage_gallons_is_GetGallons now mGallons w spawned w' gallons flow :
  Update now mGallons w = Some (spawned, w') ->
  In (GoUsage gallons flow) spawned ->
  GetGallons w' = Some (gallons, w').
Proof.
  destruct (prune_loop_returns (Update_prune now w)
              (Update_entry now mGallons w :: events w) ltac:(discriminate))
    as (kept & dropped & Hk & _).
  rewrite (Update_eq _ _ _ _ Hk).
  unfold Update_notify, bind, gets, modify, ret. simpl.
  destruct (U64.sub _ _ >? 0); destruct (Change w); destruct (Usage w);
    intros Hu Hin; inversion Hu; subst; simpl in Hin;
    repeat (destruct Hin as [Hin|Hin]; try discriminate; try contradiction);
    inversion Hin; subst; reflexivity.
Qed.

Lemma Usage_gallons_is_GetGallons_witness :
  exists w',
    Update 2000000000 600
      (mkWatermeter 60000000000 true true (entry.mk 0 0) 500
         [entry.mk 1000000000 500; entry.mk 0 0] false)
    = Some ([GoChange; GoUsage 1 (S754_finite false 4644337115725824 (-47))], w') /\
    GetGallons w' = Some (1, w').
Proof.
  eexists. split; [vm_compute; reflexivity|].
  apply (Usage_gallons_is_GetGallons 2000000000 600
           (mkWatermeter 60000000000 true true (entry.mk 0 0) 500
              [entry.mk 1000000000 500; entry.mk 0 0] false)
           [GoChange; GoUsage 1 (S754_finite false 4644337115725824 (-47))]
           _ 1 (S754_finite false 4644337115725824 (-47))).
  - vm_compute. reflexivity.
  - right. left. reflexivity.
Defined.

Lemma Sub_positive now last :
  last < now -> 0 < Time.Sub now last <= Duration.max_int64.
Proof.
  unfold Time.Sub, Duration.max_int64, Duration.min_int64. intros H. lia.
Qed.

(** X13: when [lastGallon] is in the gallon of the total (as it is after
    [Init] and any calls) and the clock has moved on since [lastGallon], an
    [Update] call that changes the whole-gallon count hands a registered
    [Usage] hook a finite rate above zero. *)
Theorem Usage_rate_is_positive now mGallons w :
  settled w ->
  Usage w = true ->
  entry.time (lastGallon w) < now ->
  U64.add (total w) mGallons / 1000 <> total w / 1000 ->
  exists spawned w' flow,
    Update now mGallons w = Some (spawned, w') /\
    filter is_usage spawned = [GoUsage (U64.add (total w) mGallons / 1000) flow] /\
    SFltb F64.zero flow = true /\ F64.is_finite flow = true.
Proof.
  intros (Hin & Hlin & Hfloor) Husage Htime Hcross.
  destruct (Update_notifications now mGallons w Hin) as (sp & w' & Hu & Hch & _).
  destruct (Hch Hcross) as [Hf _]. rewrite Husage in Hf. simpl entry.total in Hf.
  eexists sp, w', _. split; [exact Hu|]. split; [exact Hf|].
  assert (Hr : U64.in_range (U64.add (total w) mGallons)) by apply U64_wrap_range.
  assert (Hne : U64.add (total w) mGallons <> entry.total (lastGallon w)).
  { intros Heq. apply Hcross. rewrite Heq. exact Hfloor. }
  pose proof (sub_pos_iff _ _ Hr Hlin) as Hpos.
  destruct (Z.eqb_spec (U64.add (total w) mGallons) (entry.total (lastGallon w)))
    as [Heq|_]; [contradiction|].
  simpl in Hpos. rewrite Z.gtb_ltb in Hpos. apply Z.ltb_lt in Hpos.
  pose proof (U64_wrap_range (U64.add (total w) mGallons - entry.total (lastGallon w)))
    as Hrange.
  fold (U64.sub (U64.add (total w) mGallons) (entry.total (lastGallon w))) in Hrange.
  pose proof (flow_rate_pos_finite _ _ (conj Hpos (proj2 Hrange))
                (Minutes_pos_finite _ (Sub_positive _ _ Htime))) as Hfin.
  split; [apply (pos_finite_positive _ _ _ Hfin)|].
  destruct Hfin as (m & e & -> & _). reflexivity.
Qed.

Lemma Usage_rate_is_positive_witness :
  settled (mkWatermeter 60000000000 true true (entry.mk 0 0) 500
             [entry.mk 1000000000 500; entry.mk 0 0] false) /\
  exists spawned w' flow,
    Update 2000000000 600
      (mkWatermeter 60000000000 true true (entry.mk 0 0) 500
         [entry.mk 1000000000 500; entry.mk 0 0] false) = Some (spawned, w') /\
    filter is_usage spawned = [GoUsage (U64.add 500 600 / 1000) flow] /\
    SFltb F64.zero flow = true /\ F64.is_finite flow = true.
Proof.
  assert (H : settled (mkWatermeter 60000000000 true true (entry.mk 0 0) 500
                         [entry.mk 1000000000 500; entry.mk 0 0] false)).
  { unfold settled, U64.in_range, U64.modulus. simpl. repeat split; lia. }
  split; [exact H|].
  apply (Usage_rate_is_positive 2000000000 600
           (mkWatermeter 60000000000 true true (entry.mk 0 0) 500
              [entry.mk 1000000000 500; entry.mk 0 0] false) H eq_refl).
  - simpl. lia.
  - vm_compute. discriminate.
Defined.

(** ** The hooks over a sequence of calls *)

Lemma usage_gallons_app l1 l2 :
  usage_gallons (l1 ++ l2) = usage_gallons l1 ++ usage_gallons l2.
Proof. unfold usage_gallons. apply flat_map_app. Qed.

Lemma usage_gallons_filter l :
  usage_gallons (filter is_usage l) = usage_gallons l.
Proof.
  induction l as [|g l IH]; [reflexivity|].
  destruct g; simpl; [exact IH|]. f_equal. exact IH.
Qed.

Lemma run_log_usage calls : forall w,
  U64.in_range (total w) ->
  Forall (fun c => 0 <= snd c) calls ->
  total w + sum_deltas calls < U64.modulus ->
  exists log w',
    run_log calls w = Some (log, w') /\
    total w' = total w + sum_deltas calls /\
    increasing (usage_gallons log) /\
    Forall (fun g => total w / 1000 < g <= total w' / 1000) (usage_gallons log).
Proof.
  induction calls as [|[now m] rest IH]; intros w Hin Hpos Hsum.
  - exists [], w. simpl. repeat split; try constructor. unfold sum_deltas. simpl. lia.
  - inversion Hpos as [|c l Hm Hrest]; subst. simpl in Hm.
    pose proof (sum_deltas_nonneg rest Hrest) as Hnn.
    change (sum_deltas ((now, m) :: rest)) with (m + sum_deltas rest) in *.
    destruct (Update_returns now m w) as (sp1 & w1 & kept & dropped & Hu1 & Ht & _).
    destruct (Update_notifications now m w Hin) as (sp & w1' & Hu & Hch & Hsame).
    rewrite Hu in Hu1. inversion Hu1; subst sp1 w1'.
    assert (Hadd : U64.add (total w) m = total w + m).
    { apply wrap_small. destruct Hin. unfold U64.in_range. lia. }
    rewrite Hadd in Ht. simpl entry.total in Hch, Hsame. rewrite Hadd in Hch, Hsame.
    destruct (IH w1) as (later & w' & Hr & Ht' & Hinc & Hall).
    { rewrite Ht. destruct Hin. unfold U64.in_range. lia. }
    { exact Hrest. }
    { lia. }
    exists (sp ++ later), w'. split; [|split; [lia|]].
    + simpl. unfold bind. rewrite Hu, Hr. reflexivity.
    + rewrite usage_gallons_app, <- (usage_gallons_filter sp).
      assert (Hmono : total w / 1000 <= (total w + m) / 1000)
        by (apply Z.div_le_mono; lia).
      assert (Hmono' : (total w + m) / 1000 <= total w' / 1000)
        by (apply Z.div_le_mono; lia).
      rewrite Ht in Hall.
      assert (Hall' : Forall (fun g => total w / 1000 < g <= total w' / 1000)
                        (usage_gallons later)).
      { eapply Forall_impl; [|exact Hall]. intros g Hg. simpl in Hg. lia. }
      destruct (Z.eq_dec ((total w + m) / 1000) (total w / 1000)) as [Heq|Hne].
      * destruct (Hsame Heq) as [Hf _]. rewrite Hf. simpl. split; assumption.
      * destruct (Hch Hne) as [Hf _]. rewrite Hf.
        destruct (Usage w); simpl; [|split; assumption].
        split; [split|].
        -- eapply Forall_impl; [|exact Hall]. intros g Hg. simpl in Hg. lia.
        -- exact Hinc.
        -- constructor; [lia | exact Hall'].
Qed.

Lemma run_log_crossings calls : forall w,
  U64.in_range (total w) ->
  exists log w',
    run_log calls w = Some (log, w') /\
    usage_gallons log =
      (if Usage w then crossing_gallons (total w) calls else []).
Proof.
  induction calls as [|[now m] rest IH]; intros w Hin.
  - exists [], w. split; [reflexivity|]. destruct (Usage w); reflexivity.
  - destruct (Update_returns now m w)
      as (sp1 & w1 & kept & dropped & Hu1 & Ht & _ & _ & Hus & _).
    destruct (Update_notifications now m w Hin) as (sp & w1' & Hu & Hch & Hsame).
    rewrite Hu in Hu1. inversion Hu1; subst sp1 w1'.
    simpl entry.total in Hch, Hsame.
    destruct (IH w1) as (later & w' & Hr & Hlog).
    { rewrite Ht. apply U64_wrap_range. }
    exists (sp ++ later), w'. split.
    + simpl. unfold bind. rewrite Hu, Hr. reflexivity.
    + rewrite usage_gallons_app, <- (usage_gallons_filter sp), Hlog, Hus, Ht.
      simpl crossing_gallons.
      destruct (Z.eqb_spec (U64.add (total w) m / 1000) (total w / 1000)) as [Heq|Hne].
      * destruct (Hsame Heq) as [Hf _]. rewrite Hf. destruct (Usage w); reflexivity.
      * destruct (Hch Hne) as [Hf _]. rewrite Hf. destruct (Usage w); reflexivity.
Qed.

(** X14: over [Init] and a sequence of [Update] calls, the whole-gallon
    counts handed to a registered [Usage] hook are exactly, in the order of
    the calls, the new count of every call that changes the count: one start
    of the hook for such a call, also when the call passes several whole
    gallons, and none for the other calls or when the hook is not
    registered.  When the running total stays below 2^64 these counts are
    strictly increasing, each above floor(initial / 1000) and at most
    floor((initial + d1 + ... + dn) / 1000). *)
Theorem Usage_counts_increase now0 initial calls w :
  U64.in_range initial ->
  exists log,
    result ((Init now0 initial ;;; run_log calls) w) = Some log /\
    usage_gallons log =
      (if Usage w then crossing_gallons initial calls else []) /\
    (length (usage_gallons log) <= length calls)%nat /\
    (Forall (fun c => 0 <= snd c) calls ->
     initial + sum_deltas calls < U64.modulus ->
     increasing (usage_gallons log) /\
     Forall (fun g => initial / 1000 < g <= (initial + sum_deltas calls) / 1000)
       (usage_gallons log)).
Proof.
  intros Hin. unfold bind. rewrite Init_eq.
  match goal with |- context [run_log calls ?s] => set (w1 := s) end.
  destruct (run_log_crossings calls w1 Hin) as (log & w' & Hr & Hlog).
  exists log. rewrite Hr. split; [reflexivity|]. split; [exact Hlog|]. split.
  - rewrite Hlog. simpl Usage. destruct (Usage w); [|simpl; lia].
    simpl total. clear. generalize initial.
    induction calls as [|[now m] rest IH]; intros t; [apply Nat.le_refl|].
    simpl crossing_gallons. rewrite length_app. specialize (IH (U64.add t m)).
    destruct (_ =? _); simpl length in *; lia.
  - intros Hpos Hsum.
    destruct (run_log_usage calls w1 Hin Hpos Hsum) as (log' & w'' & Hr' & Ht & Hinc & Hall).
    rewrite Hr in Hr'. inversion Hr'; subst log' w''.
    split; [exact Hinc|]. rewrite Ht in Hall. exact Hall.
Qed.

Lemma Usage_counts_increase_witness :
  U64.in_range 900 /\
  Forall (fun c => 0 <= snd c) [(1, 200); (2, 50); (3, 2100)] /\
  900 + sum_deltas [(1, 200); (2, 50); (3, 2100)] < U64.modulus /\
  exists log,
    result ((Init 0 900 ;;; run_log [(1, 200); (2, 50); (3, 2100)])
              (meter 60 true false)) = Some log /\
    usage_gallons log = [1; 3] /\
    increasing (usage_gallons log).
Proof.
  assert (H1 : U64.in_range 900) by (unfold U64.in_range, U64.modulus; lia).
  assert (H2 : Forall (fun c => 0 <= snd c) [(1, 200); (2, 50); (3, 2100)]).
  { repeat constructor; simpl; lia. }
  assert (H3 : 900 + sum_deltas [(1, 200); (2, 50); (3, 2100)] < U64.modulus).
  { vm_compute. reflexivity. }
  split; [exact H1|]. split; [exact H2|]. split; [exact H3|].
  destruct (Usage_counts_increase 0 900 [(1, 200); (2, 50); (3, 2100)]
              (meter 60 true false) H1) as (log & Hl & Hg & _ & Ho).
  exists log. split; [exact Hl|]. split; [exact Hg|].
  exact (proj1 (Ho H2 H3)).
Defined.

Lemma Update_spawned_change now mGallons w :
  exists spawned w',
    Update now mGallons w = Some (spawned, w') /\
    filter is_change spawned = (if Change w then [GoChange] else []) /\
    Change w' = Change w.
Proof.
  destruct (prune_loop_returns (Update_prune now w)
              (Update_entry now mGallons w :: events w) ltac:(discriminate))
    as (kept & dropped & Hk & _).
  rewrite (Update_eq _ _ _ _ Hk).
  unfold Update_notify, bind, gets, modify, ret. simpl.
  destruct (U64.sub _ _ >? 0); destruct (Change w); try destruct (Usage w);
    eexists; eexists; (split; [reflexivity|]); simpl; split; reflexivity.
Qed.

(** X15: over any sequence of [Update] calls a registered [Change] hook is
    started once per call, as many times as there are calls, and an
    unregistered one never. *)
Theorem Change_once_per_call calls : forall w,
  exists log w',
    run_log calls w = Some (log, w') /\
    length (filter is_change log) =
      (if Change w then length calls else 0%nat).
Proof.
  induction calls as [|[now m] rest IH]; intros w.
  - exists [], w. split; [reflexivity|]. destruct (Change w); reflexivity.
  - destruct (Update_spawned_change now m w) as (sp & w1 & Hu & Hf & Hc).
    destruct (IH w1) as (later & w' & Hr & Hlen).
    exists (sp ++ later), w'. split.
    + simpl. unfold bind. rewrite Hu, Hr. reflexivity.
    + rewrite filter_app, length_app, Hf, Hlen, Hc.
      destruct (Change w); reflexivity.
Qed.

(** ** A negative duration *)

Lemma binary_round_aux_opp s m e l :
  binary_round_aux F64.prec F64.emax (negb s) m e l =
  SFopp (binary_round_aux F64.prec F64.emax s m e l).
Proof.
  unfold binary_round_aux.
  destruct (shr_fexp F64.prec F64.emax m e l) as [r1 e1].
  destruct (shr_fexp F64.prec F64.emax _ e1 loc_Exact) as [r2 e2].
  destruct (shr_m r2); try reflexivity.
  destruct (e2 <=? F64.emax - F64.prec); reflexivity.
Qed.

Lemma of_Z_opp z : 0 < z -> F64.of_Z (- z) = SFopp (F64.of_Z z).
Proof.
  intros Hz. destruct z as [|p|p]; try lia.
  unfold F64.of_Z. simpl Z.opp. unfold binary_normalize, binary_round.
  destruct (shl_align p 0 _) as [mz ez].
  apply (binary_round_aux_opp false).
Qed.

Lemma div_opp_l x y : F64.div (SFopp x) y = SFopp (F64.div x y).
Proof.
  destruct x as [sx|sx| |sx mx ex], y as [sy|sy| |sy my ey];
    try reflexivity; unfold F64.div; simpl;
    try (destruct sx, sy; reflexivity).
  destruct (SFdiv_core_binary _ _ _ _ _ _) as [[mz ez] lz].
  rewrite <- binary_round_aux_opp. f_equal. destruct sx, sy; reflexivity.
Qed.

Lemma div_opp_r x y : F64.div x (SFopp y) = SFopp (F64.div x y).
Proof.
  destruct x as [sx|sx| |sx mx ex], y as [sy|sy| |sy my ey];
    try reflexivity; unfold F64.div; simpl;
    try (destruct sx, sy; reflexivity).
  destruct (SFdiv_core_binary _ _ _ _ _ _) as [[mz ez] lz].
  rewrite <- binary_round_aux_opp. f_equal. destruct sx, sy; reflexivity.
Qed.

Lemma add_opp_finite a b c d x y :
  pos_finite a b x -> pos_finite c d y ->
  F64.add (SFopp x) (SFopp y) = SFopp (F64.add x y).
Proof.
  intros (mx & ex & -> & _) (my & ey & -> & _).
  unfold F64.add, SFopp, SFadd. simpl negb.
  destruct (shl_align mx ex (Z.min ex ey)) as [ax ex'].
  destruct (shl_align my ey (Z.min ex ey)) as [ay ey'].
  simpl fst. simpl cond_Zopp.
  change (Z.neg ax + Z.neg ay) with (Z.neg (ax + ay)).
  change (Z.pos ax + Z.pos ay) with (Z.pos (ax + ay)).
  unfold binary_normalize, binary_round.
  destruct (shl_align (ax + ay) _ _) as [mz ez].
  apply (binary_round_aux_opp false).
Qed.

Lemma opp_add_zero_l x a b :
  pos_finite a b x -> F64.add (S754_zero false) (SFopp x) = SFopp x.
Proof. intros (m & e & -> & _). reflexivity. Qed.

Lemma opp_add_zero_r x a b :
  pos_finite a b x -> F64.add (SFopp x) (S754_zero false) = SFopp x.
Proof. intros (m & e & -> & _). reflexivity. Qed.

(** [Minutes] of the opposite of a positive duration is the opposite
    number. *)
Lemma Minutes_opp d :
  0 < d <= Duration.max_int64 ->
  Duration.Minutes (- d) = SFopp (Duration.Minutes d).
Proof.
  intros [Hd Hmax]. unfold Duration.max_int64 in Hmax. unfold Duration.Minutes.
  assert (HM : Duration.Minute = 60000000000) by reflexivity.
  rewrite Z.quot_opp_l, Z.rem_opp_l by (rewrite HM; lia).
  rewrite Z.quot_div_nonneg, Z.rem_mod_nonneg by (rewrite ?HM; lia).
  rewrite HM.
  pose proof (Z.mod_pos_bound d 60000000000 ltac:(lia)) as Hr.
  pose proof (Z.div_mod d 60000000000 ltac:(lia)) as Hdm.
  assert (Hq : 0 <= d / 60000000000 < 2 ^ 28).
  { split; [apply Z.div_pos; lia|]. apply Z.div_lt_upper_bound; lia. }
  set (q := d / 60000000000) in *. set (r := d mod 60000000000) in *.
  assert (Hy : 0 < r -> pos_finite (-35) 3
                          (F64.div (F64.of_Z r) (F64.of_Z 60000000000))).
  { intros Hr0. apply (div_finite 1 37 36 36); try lia.
    - apply (of_Z_finite r 36); lia.
    - exact pos_finite_Minute. }
  assert (Hx : 0 < q -> pos_finite 1 29 (F64.of_Z q)).
  { intros Hq0. apply (of_Z_finite q 28); lia. }
  destruct (Z.eq_dec q 0) as [Hq0|Hq0]; destruct (Z.eq_dec r 0) as [Hr0|Hr0].
  - lia.
  - rewrite Hq0. simpl (- 0). rewrite of_Z_zero, of_Z_opp, div_opp_l by lia.
    rewrite (opp_add_zero_l _ _ _ (Hy ltac:(lia))), (add_zero_l _ _ _ (Hy ltac:(lia))).
    reflexivity.
  - rewrite Hr0. simpl (- 0).
    rewrite of_Z_zero, (div_zero_l _ _ _ pos_finite_Minute), of_Z_opp by lia.
    rewrite (opp_add_zero_r _ _ _ (Hx ltac:(lia))), (add_zero_r _ _ _ (Hx ltac:(lia))).
    reflexivity.
  - rewrite !of_Z_opp, div_opp_l by lia.
    apply (add_opp_finite _ _ _ _ _ _ (Hx ltac:(lia)) (Hy ltac:(lia))).
Qed.

Lemma neg_negative d :
  - Duration.max_int64 <= d < 0 -> Duration.neg d = - d.
Proof.
  unfold Duration.max_int64, Duration.neg, Duration.wrap. intros H.
  rewrite Z.mod_small by lia. lia.
Qed.

(** X16: with a negative duration [GetFlow] returns a finite rate that is
    never above zero: it is negative zero when the volume delta is zero and
    a number strictly below zero otherwise. *)
Theorem GetFlow_negative_duration w now d :
  - Duration.max_int64 <= d < 0 ->
  exists r w',
    GetFlow now d w = Some (r, w') /\
    F64.leb r F64.zero = true /\
    SFltb F64.zero r = false /\
    F64.is_finite r = true /\
    (U64.sub (total w)
       (entry.total (walk (now - d) (entry.mk now (total w)) (events w))) = 0 ->
     r = S754_zero true) /\
    (U64.sub (total w)
       (entry.total (walk (now - d) (entry.mk now (total w)) (events w))) <> 0 ->
     SFltb r F64.zero = true).
Proof.
  intros Hd. rewrite GetFlow_eq. eexists; eexists. split; [reflexivity|].
  assert (Hd' : 0 < - d <= Duration.max_int64) by lia.
  pose proof (Minutes_pos_finite (- d) Hd') as Hm.
  unfold Time.Add. rewrite neg_negative by exact Hd.
  replace (now + - d) with (now - d) by lia.
  match goal with |- context [flow_rate ?delta _] => set (dl := delta) end.
  assert (Heq : flow_rate dl (Duration.Minutes d) =
                SFopp (flow_rate dl (Duration.Minutes (- d)))).
  { replace (Duration.Minutes d) with (SFopp (Duration.Minutes (- d))).
    - unfold flow_rate. apply div_opp_r.
    - rewrite <- (Minutes_opp (- d) Hd'). f_equal. lia. }
  rewrite Heq.
  assert (Hr : 0 <= dl < U64.modulus) by apply U64_wrap_range.
  destruct (Z.eq_dec dl 0) as [H0|H0].
  - rewrite H0, (flow_rate_zero _ _ _ Hm).
    repeat split; try reflexivity. intros Hc. contradiction.
  - destruct (flow_rate_pos_finite dl _ ltac:(lia) Hm) as (m & e & Hf & _).
    rewrite Hf. repeat split; try reflexivity. intros Hc. contradiction.
Qed.

Lemma GetFlow_negative_duration_witness :
  - Duration.max_int64 <= -60000000000 < 0 /\
  reachable (mkWatermeter 60000000000 false false (entry.mk 2000000000 1100) 1100
               [entry.mk 2000000000 1100; entry.mk 1000000000 500; entry.mk 0 0]
               false) /\
  exists w',
    GetFlow 2000000000 (-60000000000)
      (mkWatermeter 60000000000 false false (entry.mk 2000000000 1100) 1100
         [entry.mk 2000000000 1100; entry.mk 1000000000 500; entry.mk 0 0]
         false) = Some (S754_zero true, w').
Proof.
  assert (H : - Duration.max_int64 <= -60000000000 < 0).
  { unfold Duration.max_int64. lia. }
  split; [exact H|]. split.
  - apply (reach_Update 2000000000 600
             (mkWatermeter 60000000000 false false (entry.mk 0 0) 500
                [entry.mk 1000000000 500; entry.mk 0 0] false) []);
      [|vm_compute; reflexivity].
    apply (reach_Update 1000000000 500
             (mkWatermeter 60000000000 false false (entry.mk 0 0) 0
                [entry.mk 0 0] false) []);
      [|vm_compute; reflexivity].
    apply (reach_Init 0 0 (meter 60000000000 false false)). reflexivity.
  - destruct (GetFlow_negative_duration
                (mkWatermeter 60000000000 false false (entry.mk 2000000000 1100) 1100
                   [entry.mk 2000000000 1100; entry.mk 1000000000 500; entry.mk 0 0]
                   false) 2000000000 (-60000000000) H)
      as (r & w' & Hg & _ & _ & _ & Hz & _).
    exists w'. rewrite Hg. f_equal. f_equal. apply Hz. vm_compute. reflexivity.
Defined.

(** ** The volume a query can see *)

Lemma walk_total then_ evs : forall start,
  entry.total (walk then_ start evs) = entry.total start \/
  exists e, In e evs /\ entry.total (walk then_ start evs) = entry.total e.
Proof.
  induction evs as [|e rest IH]; intros start; [left; reflexivity|].
  simpl walk. destruct (_ || _); [|left; reflexivity].
  destruct (IH (entry.mk (entry.time e) (entry.total e))) as [Hs|(x & Hin & Hx)].
  - right. exists e. split; [left; reflexivity | exact Hs].
  - right. exists x. split; [right; exact Hin | exact Hx].
Qed.

Lemma run_totals_bounded calls : forall w lo,
  U64.in_range (total w) ->
  Forall (fun c => 0 <= snd c) calls ->
  total w + sum_deltas calls < U64.modulus ->
  lo <= total w ->
  Forall (fun a => lo <= entry.total a <= total w) (events w) ->
  exists w',
    run calls w = Some (tt, w') /\
    total w' = total w + sum_deltas calls /\
    Forall (fun a => lo <= entry.total a <= total w') (events w').
Proof.
  induction calls as [|[now m] rest IH]; intros w lo Hin Hpos Hsum Hlo Hall.
  - exists w. unfold sum_deltas. simpl. repeat split; [lia | exact Hall].
  - inversion Hpos as [|c l Hm Hrest]; subst. simpl in Hm.
    pose proof (sum_deltas_nonneg rest Hrest) as Hnn.
    change (sum_deltas ((now, m) :: rest)) with (m + sum_deltas rest) in *.
    destruct (Update_returns now m w)
      as (sp & w1 & kept & dropped & Hu & Ht & Hev & _ & _ & _ & _ & Hsplit & _).
    assert (Hadd : U64.add (total w) m = total w + m).
    { apply wrap_small. destruct Hin. unfold U64.in_range. lia. }
    rewrite Hadd in Ht.
    assert (Hall1 : Forall (fun a => lo <= entry.total a <= total w1) (events w1)).
    { assert (Hfull : Forall (fun a => lo <= entry.total a <= total w1)
                        (Update_entry now m w :: events w)).
      { constructor.
        - unfold Update_entry. simpl. rewrite Hadd. lia.
        - eapply Forall_impl; [|exact Hall]. intros a Ha. simpl in Ha. lia. }
      rewrite Hsplit in Hfull. apply Forall_app in Hfull.
      rewrite Hev. exact (proj1 Hfull). }
    destruct (IH w1 lo) as (w' & Hr & Ht' & Hall'); try assumption.
    { rewrite Ht. destruct Hin. unfold U64.in_range. lia. }
    { lia. }
    { lia. }
    exists w'. split; [|split; [lia | exact Hall']].
    simpl. unfold bind. rewrite Hu. exact Hr.
Qed.

(** X17: after [Init] and a sequence of [Update] calls whose running total
    stays below 2^64, the volume delta of a [GetFlow] query does not wrap
    around: it lies between 0 and d1 + ... + dn, the volume added since
    [Init], whatever the clock readings and the duration. *)
Theorem GetFlow_volume_bounded now0 initial calls w now d :
  U64.in_range initial ->
  Forall (fun c => 0 <= snd c) calls ->
  initial + sum_deltas calls < U64.modulus ->
  exists w' delta w'',
    (Init now0 initial ;;; run calls) w = Some (tt, w') /\
    GetFlow now d w' =
      Some (F64.div (F64.div (F64.of_Z delta) (F64.of_Z 1000))
              (Duration.Minutes d), w'') /\
    0 <= delta <= sum_deltas calls.
Proof.
  intros Hin Hpos Hsum. unfold bind. rewrite Init_eq.
  match goal with |- context [run calls ?s] => set (w1 := s) end.
  destruct (run_totals_bounded calls w1 initial Hin Hpos Hsum) as (w' & Hr & Ht & Hall).
  { simpl. lia. }
  { simpl. repeat constructor; simpl; lia. }
  simpl in Ht. rewrite Hr.
  eexists w', _, _. split; [reflexivity|].
  rewrite GetFlow_eq. split; [reflexivity|].
  set (start := walk _ _ _).
  assert (Hs : initial <= entry.total start <= total w').
  { destruct (walk_total (Time.Add now (Duration.neg d)) (events w')
                (entry.mk now (total w'))) as [He|(e & Hin' & He)];
      fold start in He; rewrite He.
    - simpl. pose proof (sum_deltas_nonneg calls Hpos). lia.
    - rewrite Forall_forall in Hall. exact (Hall e Hin'). }
  unfold U64.sub, U64.wrap. rewrite Z.mod_small.
  - lia.
  - destruct Hin. unfold U64.modulus in *. lia.
Qed.

Lemma GetFlow_volume_bounded_witness :
  U64.in_range 900 /\
  Forall (fun c => 0 <= snd c) [(1, 200); (2, 50); (3, 2100)] /\
  900 + sum_deltas [(1, 200); (2, 50); (3, 2100)] < U64.modulus /\
  exists w' delta w'',
    (Init 0 900 ;;; run [(1, 200); (2, 50); (3, 2100)]) (meter 60 true false)
      = Some (tt, w') /\
    GetFlow 3 60000000000 w' =
      Some (F64.div (F64.div (F64.of_Z delta) (F64.of_Z 1000))
              (Duration.Minutes 60000000000), w'') /\
    0 <= delta <= sum_deltas [(1, 200); (2, 50); (3, 2100)].
Proof.
  assert (H1 : U64.in_range 900) by (unfold U64.in_range, U64.modulus; lia).
  assert (H2 : Forall (fun c => 0 <= snd c) [(1, 200); (2, 50); (3, 2100)]).
  { repeat constructor; simpl; lia. }
  assert (H3 : 900 + sum_deltas [(1, 200); (2, 50); (3, 2100)] < U64.modulus).
  { vm_compute. reflexivity. }
  split; [exact H1|]. split; [exact H2|]. split; [exact H3|].
  exact (GetFlow_volume_bounded 0 900 [(1, 200); (2, 50); (3, 2100)]
           (meter 60 true false) 3 60000000000 H1 H2 H3).
Defined.

(** X18: after [Init] and any sequence of [Update] calls made while the
    clock never goes back, [GetFlow(d)] with a positive duration measures
    from the oldest sample kept whose timestamp is at or after [now - d],
    and from the point (now, total) when there is none. *)
Theorem GetFlow_after_updates now0 initial calls w now d :
  clock_nondecreasing now0 calls ->
  0 < d <= Duration.max_int64 ->
  exists w' w'',
    (Init now0 initial ;;; run calls) w = Some (tt, w') /\
    GetFlow now d w' =
    Some (F64.div
            (F64.div
               (F64.of_Z
                  (U64.sub (total w')
                     (entry.total
                        match oldest_in_window (now - d) (events w') with
                        | Some e => e
                        | None => entry.mk now (total w')
                        end)))
               (F64.of_Z 1000))
            (Duration.Minutes d), w'').
Proof.
  intros Hclock Hd. unfold bind. rewrite Init_eq.
  match goal with |- context [run calls ?s] => set (w1 := s) end.
  destruct (run_time_ordered calls w1 now0 Hclock) as (w' & Hr & Hord).
  { unfold time_ordered. simpl. repeat split; constructor. }
  { simpl. repeat constructor. simpl. lia. }
  rewrite Hr. eexists w', _. split; [reflexivity|].
  rewrite GetFlow_eq. unfold Time.Add. rewrite neg_small by lia.
  rewrite walk_oldest by exact Hord.
  replace (now + - d) with (now - d) by lia. reflexivity.
Qed.

Lemma GetFlow_after_updates_witness :
  clock_nondecreasing 0 [(1000000000, 500); (2000000000, 600)] /\
  0 < 1500000000 <= Duration.max_int64 /\
  exists w' w'',
    (Init 0 0 ;;; run [(1000000000, 500); (2000000000, 600)])
      (meter 60000000000 true true) = Some (tt, w') /\
    GetFlow 2000000000 1500000000 w' =
    Some (F64.div
            (F64.div
               (F64.of_Z
                  (U64.sub (total w')
                     (entry.total
                        match oldest_in_window (2000000000 - 1500000000) (events w') with
                        | Some e => e
                        | None => entry.mk 2000000000 (total w')
                        end)))
               (F64.of_Z 1000))
            (Duration.Minutes 1500000000), w'').
Proof.
  assert (H1 : clock_nondecreasing 0 [(1000000000, 500); (2000000000, 600)]).
  { simpl. lia. }
  assert (H2 : 0 < 1500000000 <= Duration.max_int64).
  { unfold Duration.max_int64. lia. }
  split; [exact H1|]. split; [exact H2|].
  exact (GetFlow_after_updates 0 0 [(1000000000, 500); (2000000000, 600)]
           (meter 60000000000 true true) 2000000000 1500000000 H1 H2).
Defined.

Lemma Update_prunes_all_stale_witness :
  exists spawned w',
    Update 100 5 (mkWatermeter 10 false false (entry.mk 0 0) 7
                    [entry.mk 95 7; entry.mk 92 3; entry.mk 50 1; entry.mk 0 0] false)
      = Some (spawned, w') /\
    Forall (fresh 90) (events w').
Proof.
  destruct (Update_prunes_all_stale 100 5
              (mkWatermeter 10 false false (entry.mk 0 0) 7
                 [entry.mk 95 7; entry.mk 92 3; entry.mk 50 1; entry.mk 0 0] false))
    as (sp & w' & Hu & _ & Hall).
  exists sp, w'. split; [exact Hu|].
  assert (He : events w' = [entry.mk 100 12; entry.mk 95 7; entry.mk 92 3]).
  { vm_compute in Hu. injection Hu as _ <-. reflexivity. }
  apply Hall; rewrite He.
  - unfold Len. simpl. lia.
  - unfold time_ordered. simpl. repeat split; repeat constructor; simpl; lia.
Defined.
